(** * Product search demo server (app/server.js)

    A shallow embedding of the Express route handlers of [app/server.js]:
    the in-memory catalog [sampleProducts], the search dispatch
    (text / semantic / hybrid), product insertion and the Vespa status
    probe, followed by the properties of these handlers.

    Modelling conventions.
    - A JavaScript value is a [value]; a request body is the JSON object
      [express.json()] has parsed, a finite map from property names to
      values, in which an absent property reads as [undefined].
    - Strings are ASCII text: [toLowerCase] folds the letters A-Z and leaves
      every other character alone, [includes] is substring search.  No proof
      below depends on which characters [toLowerCase] folds.
    - A JavaScript number is the rational it denotes; only sign tests and
      order comparisons are performed on numbers by the handlers.
    - [Math.random] reads the next element of a stream of draws that is part
      of the server state; [fetch] is given the outcome of the network call.
    - A handler is a computation in the monad [JS]: it threads the server
      state and either completes normally or throws.  State changes made
      before a throw persist, as in JavaScript.
    - The text of the [message] of a search response is not represented,
      but the string conversion its template literal performs on
      [searchType] is: it can throw, and then the handler answers 500. *)

From Stdlib Require Import QArith Lqa Ascii String.
From stdpp Require Import gmap strings list pretty sorting.

Local Open Scope string_scope.
Local Open Scope list_scope.
Set Warnings "-register-all".

(** ** JavaScript values *)

Inductive value : Type :=
| VUndefined
| VNull
| VBool (b : bool)
| VNum (q : Q)
| VStr (s : string)
| VArr (items : list value)
| VObj (props : list (string * value)).

(** [!v] is [negb (truthy v)]. *)
Definition truthy (v : value) : bool :=
  match v with
  | VUndefined | VNull => false
  | VBool b => b
  | VNum q => negb (Qeq_bool q 0)
  | VStr s => negb (String.eqb s "")
  | VArr _ | VObj _ => true
  end.

(** [a || b] on values. *)
Definition jsOr (a b : value) : value := if truthy a then a else b.

(** [v === s] for a string literal [s]. *)
Definition strictEqStr (v : value) (s : string) : bool :=
  match v with
  | VStr t => String.eqb t s
  | _ => false
  end.

(** [`${v}`]: whether the string conversion of a template literal throws.
    Primitives always convert.  A parsed JSON object converts through
    [toString], then [valueOf]: an own [toString] property, which is never
    callable, hides [Object.prototype.toString], and [valueOf] returns the
    object itself, so the conversion throws a TypeError exactly when the
    object has an own [toString] property.  An array converts through
    [join], which converts every element other than [null] and
    [undefined]. *)
Fixpoint toStringThrows (v : value) : bool :=
  match v with
  | VObj props => existsb (λ kv, String.eqb (fst kv) "toString") props
  | VArr items => existsb toStringThrows items
  | _ => false
  end.

(** Property read [body.k] on a parsed request body. *)
Definition prop (body : gmap string value) (k : string) : value :=
  default VUndefined (body !! k).

(** Destructuring with a default, [{ k = d } = body]: the default applies
    only when the property is [undefined]. *)
Definition propDefault (body : gmap string value) (k : string) (d : value) : value :=
  match prop body k with
  | VUndefined => d
  | v => v
  end.

(** ** Strings *)

Definition lowerChar (c : ascii) : ascii :=
  let n := nat_of_ascii c in
  if (65 <=? n)%nat && (n <=? 90)%nat then ascii_of_nat (n + 32) else c.

Fixpoint toLowerCase (s : string) : string :=
  match s with
  | EmptyString => EmptyString
  | String c r => String (lowerChar c) (toLowerCase r)
  end.

Fixpoint startsWith (s t : string) {struct t} : bool :=
  match t, s with
  | EmptyString, _ => true
  | String _ _, EmptyString => false
  | String b t', String a s' => Ascii.eqb a b && startsWith s' t'
  end.

(** [s.includes(t)]: [t] occurs in [s] at some position. *)
Fixpoint includes (s t : string) : bool :=
  match s with
  | EmptyString => startsWith s t
  | String _ r => startsWith s t || includes r t
  end.

(** ** Errors, completions and the handler monad *)

Record JsError : Type := { name : string; message : string }.

Definition TypeError (msg : string) : JsError :=
  {| name := "TypeError"; message := msg |}.

Inductive Completion (A : Type) : Type :=
| Normal (a : A)
| Throw (e : JsError).
Arguments Normal {A} a.
Arguments Throw {A} e.

(** ** Data model *)

Record Product : Type := {
  id : string;
  title : value;
  description : value;
  category : value;
  price : value;
  description_vector : list Q;
  title_vector : list Q;
}.

(** The pseudo random generator behind [Math.random]: the stream of the
    draws still to come. *)
Definition Rng : Type := nat → Q.

Record Server : Type := {
  sampleProducts : list Product;
  rng : Rng;
}.

Definition JS (A : Type) : Type := Server → Completion A * Server.

Global Instance JS_ret : MRet JS := λ A a σ, (Normal a, σ).

Global Instance JS_bind : MBind JS := λ A B f m σ,
  match m σ with
  | (Normal a, σ') => f a σ'
  | (Throw e, σ') => (Throw e, σ')
  end.

Definition throw {A : Type} (e : JsError) : JS A := λ σ, (Throw e, σ).

(** [try { body } catch (error) { handler }]. *)
Definition try_catch {A : Type} (body : JS A) (handler : JsError → JS A) : JS A :=
  λ σ, match body σ with
       | (Normal a, σ') => (Normal a, σ')
       | (Throw e, σ') => handler e σ'
       end.

Definition Math_random : JS Q := λ σ,
  (Normal (rng σ 0%nat),
   {| sampleProducts := sampleProducts σ; rng := λ n, rng σ (S n) |}).

Definition readProducts : JS (list Product) := λ σ, (Normal (sampleProducts σ), σ).

(** [sampleProducts.push(p)]. *)
Definition pushProduct (p : Product) : JS unit := λ σ,
  (Normal tt, {| sampleProducts := sampleProducts σ ++ [p]; rng := rng σ |}).

(** [Array.prototype.map] and [Array.prototype.filter] with an effectful
    callback: elements are visited in index order and a throw aborts. *)
Fixpoint mapJS {A B : Type} (f : A → JS B) (l : list A) : JS (list B) :=
  match l with
  | [] => mret []
  | x :: r => y ← f x; ys ← mapJS f r; mret (y :: ys)
  end.

Fixpoint filterJS {A : Type} (f : A → JS bool) (l : list A) : JS (list A) :=
  match l with
  | [] => mret []
  | x :: r => b ← f x; ys ← filterJS f r; mret (if (b : bool) then x :: ys else ys)
  end.

(** [v.toLowerCase()]: only strings have the method. *)
Definition toLowerCaseOf (v : value) : JS string :=
  match v with
  | VStr s => mret (toLowerCase s)
  | _ => throw (TypeError "toLowerCase is not a function")
  end.

(** [createRandomVector]: 512 components [Math.random() * 2 - 1]. *)
Fixpoint randomVector (n : nat) : JS (list Q) :=
  match n with
  | O => mret []
  | S k => r ← Math_random; v ← randomVector k; mret ((r * 2 - 1)%Q :: v)
  end.

Definition createRandomVector : JS (list Q) := randomVector 512.

(** ** The catalog *)

Definition sampleProduct (i t d c : string) (p : Q) : JS Product :=
  dv ← createRandomVector;
  tv ← createRandomVector;
  mret {| id := i; title := VStr t; description := VStr d;
          category := VStr c; price := VNum p;
          description_vector := dv; title_vector := tv |}.

(** The array literal bound to [sampleProducts] when the module loads. *)
Definition initialProducts : JS (list Product) :=
  p1 ← sampleProduct "1" "iPhone 15 Pro"
         "Latest Apple smartphone with titanium design and advanced camera system"
         "Electronics" (99999 # 100);
  p2 ← sampleProduct "2" "MacBook Air M2"
         "Thin and light laptop with Apple Silicon chip for everyday computing"
         "Computers" (119999 # 100);
  p3 ← sampleProduct "3" "Nike Air Max"
         "Comfortable running shoes with air cushioning technology"
         "Sports" (12999 # 100);
  p4 ← sampleProduct "4" "Samsung 4K TV"
         "High definition television with smart features and HDR support"
         "Electronics" (59999 # 100);
  p5 ← sampleProduct "5" "Organic Coffee Beans"
         "Premium Arabica coffee beans from sustainable farms"
         "Food" (2499 # 100);
  mret [p1; p2; p3; p4; p5].

(** The server once the module has been loaded with generator [g]. *)
Definition boot (g : Rng) : Server :=
  match initialProducts {| sampleProducts := []; rng := g |} with
  | (Normal ps, σ) => {| sampleProducts := ps; rng := rng σ |}
  | (Throw _, σ) => σ
  end.

(** ** Responses *)

(** [{ ...product, similarity }] *)
Record Scored : Type := { scored_product : Product; similarity : Q }.

(** An element of [results]: a product as stored, or a product extended
    with a [similarity] property. *)
Inductive Hit : Type :=
| Plain (p : Product)
| Ranked (s : Scored).

Definition hitProduct (h : Hit) : Product :=
  match h with
  | Plain p => p
  | Ranked s => scored_product s
  end.

Inductive Body : Type :=
| ErrorBody (error : string)
| ProductsBody (products : list Product) (count : nat) (msg : string)
| SearchBody (query searchType : value) (results : list Hit) (count : nat)
| CreatedBody (msg : string) (product : Product)
| VespaUpBody (vespaStatus : nat) (status : string) (connected : bool)
| VespaDownBody (vespaStatus : string) (error : string) (connected : bool).

Record Response : Type := { statusCode : nat; body : Body }.

(** [res.json(b)] and [res.status(n).json(b)]. *)
Definition json (b : Body) : Response := {| statusCode := 200; body := b |}.
Definition statusJson (n : nat) (b : Body) : Response := {| statusCode := n; body := b |}.

(** ** Sorting *)

(** [Array.prototype.sort(cmp)] is stable; for a consistent comparator its
    result is the one computed by stable insertion: an element moves behind
    a later one only when the comparator is positive on the pair. *)
Definition isPositive (q : Q) : bool := negb (Qle_bool q 0).

Fixpoint insertBy {A : Type} (cmp : A → A → Q) (x : A) (l : list A) : list A :=
  match l with
  | [] => [x]
  | y :: r => if isPositive (cmp x y) then y :: insertBy cmp x r else x :: l
  end.

Definition sortJS {A : Type} (cmp : A → A → Q) (l : list A) : list A :=
  foldr (insertBy cmp) [] l.

(** [(a, b) => b.similarity - a.similarity] *)
Definition bySimilarity (a b : Scored) : Q := (similarity b - similarity a)%Q.

(** ** GET /api/products *)

Definition listProductsHandler : JS Response :=
  try_catch
    (ps ← readProducts;
     mret (json (ProductsBody ps (length ps)
                   "Sample products (in production, fetch from Vespa)")))
    (λ _, mret (statusJson 500 (ErrorBody "Failed to fetch products"))).

(** ** POST /api/search *)

(** The template literal of [message], [`Found ${n} products using
    ${searchType} search`]: the length always converts, [searchType] may
    not. *)
Definition messageTemplate (n : nat) (searchType : value) : JS unit :=
  if toStringThrows searchType
  then throw (TypeError "Cannot convert object to primitive value")
  else mret tt.

(** [product => ({ ...product, similarity: Math.random() * 100 })] *)
Definition withRandomSimilarity (product : Product) : JS Scored :=
  r ← Math_random;
  mret {| scored_product := product; similarity := (r * 100)%Q |}.

(** The callback of the text branch; [||] evaluates its right operand only
    when the left one is false. *)
Definition textPredicate (query : value) (product : Product) : JS bool :=
  t ← toLowerCaseOf (title product);
  q ← toLowerCaseOf query;
  if includes t q then mret true
  else
    d ← toLowerCaseOf (description product);
    q' ← toLowerCaseOf query;
    mret (includes d q').

(** The callback of the hybrid branch. *)
Definition titlePredicate (query : value) (product : Product) : JS bool :=
  t ← toLowerCaseOf (title product);
  q ← toLowerCaseOf query;
  mret (includes t q).

Definition textBranch (query : value) : JS (list Hit) :=
  ps ← readProducts;
  rs ← filterJS (textPredicate query) ps;
  mret (Plain <$> rs).

Definition semanticBranch : JS (list Hit) :=
  ps ← readProducts;
  scored ← mapJS withRandomSimilarity ps;
  mret (Ranked <$> take 3 (sortJS bySimilarity scored)).

Definition hybridBranch (query : value) : JS (list Hit) :=
  ps ← readProducts;
  textResults ← filterJS (titlePredicate query) ps;
  scored ← mapJS withRandomSimilarity ps;
  let vectorResults := sortJS bySimilarity scored in
  let textIds : gset string := list_to_set (id <$> textResults) in
  let combinedResults :=
    (Plain <$> textResults) ++
    (Ranked <$> filter (λ p, id (scored_product p) ∉ textIds) vectorResults) in
  mret (take 5 combinedResults).

Definition searchHandler (reqBody : gmap string value) : JS Response :=
  try_catch
    (let query := prop reqBody "query" in
     let searchType := propDefault reqBody "searchType" (VStr "text") in
     if negb (truthy query) then
       mret (statusJson 400 (ErrorBody "Query is required"))
     else
       results ←
         (if strictEqStr searchType "text" then textBranch query
          else if strictEqStr searchType "semantic" then semanticBranch
          else hybridBranch query);
       _ ← messageTemplate (length results) searchType;
       mret (json (SearchBody query searchType results (length results))))
    (λ _, mret (statusJson 500 (ErrorBody "Search failed"))).

(** ** POST /api/products *)

Definition addProductHandler (reqBody : gmap string value) : JS Response :=
  try_catch
    (let title' := prop reqBody "title" in
     let description' := prop reqBody "description" in
     let category' := prop reqBody "category" in
     let price' := prop reqBody "price" in
     if negb (truthy title') || negb (truthy description') then
       mret (statusJson 400 (ErrorBody "Title and description are required"))
     else
       ps ← readProducts;
       dv ← createRandomVector;
       tv ← createRandomVector;
       let newProduct :=
         {| id := pretty (length ps + 1)%nat;
            title := title';
            description := description';
            category := jsOr category' (VStr "General");
            price := jsOr price' (VNum 0);
            description_vector := dv;
            title_vector := tv |} in
       _ ← pushProduct newProduct;
       mret (statusJson 201 (CreatedBody "Product added successfully" newProduct)))
    (λ _, mret (statusJson 500 (ErrorBody "Failed to add product"))).

(** ** GET /api/vespa/status *)

(** What the network does with the request: [fetch] rejects, or resolves
    to a response whose body can be read, or whose body read rejects. *)
Inductive TextOutcome : Type :=
| TextOk (text : string)
| TextFails (e : JsError).

Inductive FetchOutcome : Type :=
| Rejects (e : JsError)
| Resolves (httpStatus : nat) (payload : TextOutcome).

Record FetchResponse : Type := { response_status : nat; response_body : TextOutcome }.

Definition fetch (net : FetchOutcome) : JS FetchResponse :=
  match net with
  | Rejects e => throw e
  | Resolves st t => mret {| response_status := st; response_body := t |}
  end.

(** [response.text()] *)
Definition text_of (response : FetchResponse) : JS string :=
  match response_body response with
  | TextOk s => mret s
  | TextFails e => throw e
  end.

Definition vespaStatusHandler (net : FetchOutcome) : JS Response :=
  try_catch
    (response ← fetch net;
     status ← text_of response;
     mret (json (VespaUpBody (response_status response) status
                   (response_status response =? 200)%nat)))
    (λ error,
       mret (json (VespaDownBody "disconnected" (message error) false))).

(** * Specification vocabulary *)

Definition descending (a b : Scored) : Prop := (similarity b <= similarity a)%Q.

(** The generator after [k] draws. *)
Definition advance (k : nat) (g : Rng) : Rng := λ n, g (k + n)%nat.

Fixpoint vectorOf (n : nat) (g : Rng) : list Q :=
  match n with
  | O => []
  | S k => (g 0%nat * 2 - 1)%Q :: vectorOf k (advance 1 g)
  end.

(** The scores [map] attaches to the products of [l], drawn from [g]. *)
Fixpoint scoresOf (g : Rng) (l : list Product) : list Scored :=
  match l with
  | [] => []
  | p :: r =>
      {| scored_product := p; similarity := (g 0%nat * 100)%Q |}
        :: scoresOf (advance 1 g) r
  end.

(** What the two filter callbacks decide on a product. *)
Definition matchesTitle (query : value) (p : Product) : bool :=
  match title p, query with
  | VStr t, VStr q => includes (toLowerCase t) (toLowerCase q)
  | _, _ => false
  end.

Definition matchesDescription (query : value) (p : Product) : bool :=
  match description p, query with
  | VStr d, VStr q => includes (toLowerCase d) (toLowerCase q)
  | _, _ => false
  end.

Definition matchesText (query : value) (p : Product) : bool :=
  matchesTitle query p || matchesDescription query p.

(** Products whose searched fields are strings, as in the initial catalog. *)
Definition textual (p : Product) : Prop :=
  (∃ t, title p = VStr t) ∧ (∃ d, description p = VStr d).


(** [field] is a string that contains [q] when both are case folded. *)
Definition containsFolded (field : value) (q : string) : Prop :=
  ∃ s pre post, field = VStr s ∧ toLowerCase s = pre +:+ toLowerCase q +:+ post.

Definition hitId (h : Hit) : string := id (hitProduct h).

(** ** The server as a transition system *)

Inductive Request : Type :=
| GetProducts
| PostSearch (reqBody : gmap string value)
| PostProducts (reqBody : gmap string value)
| GetVespaStatus (net : FetchOutcome).

Definition route (r : Request) : JS Response :=
  match r with
  | GetProducts => listProductsHandler
  | PostSearch b => searchHandler b
  | PostProducts b => addProductHandler b
  | GetVespaStatus net => vespaStatusHandler net
  end.

(** The states the server passes through: it boots with some generator and
    then serves requests one after the other. *)
Inductive reachable : Server → Prop :=
| reachable_boot (g : Rng) : reachable (boot g)
| reachable_step (σ : Server) (r : Request) :
    reachable σ → reachable (snd (route r σ)).

(** The ids [addProduct] hands out: the decimal numerals 1, 2, 3, ... *)
Definition idsUpTo (n : nat) : list string := (λ k, pretty (k + 1)%nat) <$> seq 0 n.

(** ** Vocabulary of the status probe and of product insertion *)

Definition transportFailure (net : FetchOutcome) : Prop :=
  match net with
  | Rejects _ => True
  | Resolves _ (TextFails _) => True
  | Resolves _ (TextOk _) => False
  end.

(** The [connected] property of a status object. *)
Definition connectedOf (b : Body) : option bool :=
  match b with
  | VespaUpBody _ _ c => Some c
  | VespaDownBody _ _ c => Some c
  | _ => None
  end.

Definition emptyOrMissing (v : value) : Prop := v = VUndefined ∨ v = VStr "".

Definition nonEmptyText (v : value) : Prop := ∃ s, v = VStr s ∧ s ≠ "".

(** What the search handler sends once a branch has produced [results],
    and what its [catch] sends. *)
Definition searchOk (query searchType : value) (results : list Hit) : Response :=
  json (SearchBody query searchType results (length results)).

Definition searchFailed : Response := statusJson 500 (ErrorBody "Search failed").

Definition queryRequired : Response := statusJson 400 (ErrorBody "Query is required").

(** The result list of the hybrid branch on catalog [ps] with draws [g],
    when its title filter completes. *)
Definition hybridResults (query : value) (ps : list Product) (g : Rng) : list Hit :=
  let textResults := filter (λ p, matchesTitle query p) ps in
  let vectorResults := sortJS bySimilarity (scoresOf g ps) in
  let textIds : gset string := list_to_set (id <$> textResults) in
  take 5 ((Plain <$> textResults) ++
          (Ranked <$> filter (λ p, id (scored_product p) ∉ textIds) vectorResults)).

Definition semanticResults (ps : list Product) (g : Rng) : list Scored :=
  take 3 (sortJS bySimilarity (scoresOf g ps)).

(** The end of the search handler: the response built from the completion
    of the selected branch.  A branch that throws, or a [searchType] whose
    string conversion throws while [message] is built, ends in the
    [catch]. *)
Definition respond (query searchType : value)
    (c : Completion (list Hit) * Server) : Completion Response * Server :=
  match c with
  | (Normal results, σ') =>
      if toStringThrows searchType then (Normal searchFailed, σ')
      else (Normal (searchOk query searchType results), σ')
  | (Throw _, σ') => (Normal searchFailed, σ')
  end.

(** ** Concrete inputs used in examples *)

(** A generator cycling through 0, 0.1, ..., 0.6. *)
Definition g0 : Rng := λ n, (Z.of_nat (n mod 7) # 10).

Definition searchRequest (q t : string) : gmap string value :=
  {[ "query" := VStr q; "searchType" := VStr t ]}.

Definition productRequest (t d : string) : gmap string value :=
  {[ "title" := VStr t; "description" := VStr d ]}.

(** The ids of the results of a search response, in order. *)
Definition resultIds (c : Completion Response * Server) : option (list string) :=
  match c with
  | (Normal {| body := SearchBody _ _ results _ |}, _) => Some (hitId <$> results)
  | _ => None
  end.

Definition responseStatus (c : Completion Response * Server) : option nat :=
  match c with
  | (Normal r, _) => Some (statusCode r)
  | _ => None
  end.

(** The product [addProduct] builds from a request on a catalog [ps] with
    generator [g]. *)
Definition newProductOf (reqBody : gmap string value) (ps : list Product) (g : Rng) : Product :=
  {| id := pretty (length ps + 1)%nat;
     title := prop reqBody "title";
     description := prop reqBody "description";
     category := jsOr (prop reqBody "category") (VStr "General");
     price := jsOr (prop reqBody "price") (VNum 0);
     description_vector := vectorOf 512 g;
     title_vector := vectorOf 512 (advance 512 g) |}.

Definition created (p : Product) : Response :=
  statusJson 201 (CreatedBody "Product added successfully" p).

Definition titleRequired : Response :=
  statusJson 400 (ErrorBody "Title and description are required").

(** ** Vocabulary of the further properties *)

(** Draws as [Math.random] delivers them: numbers in [0, 1). *)
Definition unitDraws (g : Rng) : Prop := ∀ n, (0 <= g n)%Q ∧ (g n < 1)%Q.

Definition isText (v : value) : Prop := ∃ s, v = VStr s.

(** The products on which the callback of the text branch throws for the
    string query [q]: the title is not a string, or the title does not
    contain the query and the description is not a string. *)
Definition textFaults (q : string) (p : Product) : Prop :=
  ¬ isText (title p) ∨ (¬ containsFolded (title p) q ∧ ¬ isText (description p)).

(** The [results] of a search response; empty for every other response. *)
Definition hitsOf (c : Completion Response * Server) : list Hit :=
  match c with
  | (Normal {| body := SearchBody _ _ results _ |}, _) => results
  | _ => []
  end.

Definition scoreInRange (h : Hit) : Prop :=
  match h with
  | Plain _ => True
  | Ranked s => (0 <= similarity s)%Q ∧ (similarity s < 100)%Q
  end.

(** Both embedding vectors have the dimension of [createRandomVector]. *)
Definition vectorsOk (p : Product) : Prop :=
  length (description_vector p) = 512%nat ∧ length (title_vector p) = 512%nat.

(** The server after serving the requests [rs] one after the other. *)
Fixpoint serve (rs : list Request) (σ : Server) : Server :=
  match rs with
  | [] => σ
  | r :: rest => serve rest (snd (route r σ))
  end.

(** Scored products whose similarity equals [q] as a number. *)
Definition scoredAt (q : Q) (s : Scored) : bool := Qeq_bool (similarity s) q.

(** * Properties *)

(** ** Substring search *)

Lemma startsWith_spec s t :
  startsWith s t = true ↔ ∃ post, s = t +:+ post.
Proof.
  revert s; induction t as [|b t IH]; intros s; simpl.
  - split; [intros _; by exists s | done].
  - destruct s as [|a s]; simpl.
    + split; [done | intros [post H]; discriminate].
    + rewrite andb_true_iff, IH. split.
      * intros [Hab [post ->]]. apply Ascii.eqb_eq in Hab as ->. by exists post.
      * intros [post H]. injection H as -> ->. split; [apply Ascii.eqb_refl | by exists post].
Qed.

Lemma includes_spec s t :
  includes s t = true ↔ ∃ pre post, s = pre +:+ t +:+ post.
Proof.
  induction s as [|a s IH]; simpl.
  - rewrite startsWith_spec. split.
    + intros [post H]. by exists "", post.
    + intros [pre [post H]]. destruct pre; [by exists post | discriminate].
  - rewrite orb_true_iff, IH, (startsWith_spec (String a s)). split.
    + intros [[post H] | [pre [post H]]].
      * by exists "", post.
      * exists (String a pre), post. simpl. by rewrite H.
    + intros [pre [post H]]. destruct pre as [|c pre]; simpl in H.
      * left. by exists post.
      * right. injection H as -> ->. by exists pre, post.
Qed.


(** ** Stable sorting by descending similarity *)

Lemma isPositive_bySimilarity a b :
  isPositive (bySimilarity a b) = true ↔ (similarity a < similarity b)%Q.
Proof.
  unfold isPositive, bySimilarity. rewrite negb_true_iff.
  split.
  - intros H. destruct (Qlt_le_dec (similarity a) (similarity b)) as [|Hle]; [done|].
    assert (Qle_bool (similarity b - similarity a) 0 = true) as E
      by (apply Qle_bool_iff; lra).
    congruence.
  - intros H. destruct (Qle_bool _ 0) eqn:E; [|done].
    apply Qle_bool_iff in E. lra.
Qed.

Lemma insertBy_Permutation {A} (cmp : A → A → Q) x l :
  insertBy cmp x l ≡ₚ x :: l.
Proof.
  induction l as [|y l IH]; simpl; [done|].
  destruct (isPositive _); [|done].
  rewrite IH. apply Permutation_swap.
Qed.

Lemma sortJS_Permutation {A} (cmp : A → A → Q) l : sortJS cmp l ≡ₚ l.
Proof.
  induction l as [|x l IH]; simpl; [done|].
  change (insertBy cmp x (sortJS cmp l) ≡ₚ x :: l).
  by rewrite insertBy_Permutation, IH.
Qed.


Global Instance descending_trans : Transitive descending.
Proof. unfold descending. intros a b c ??. lra. Qed.




(** Equal scores keep their original order: the sort is stable. *)
Lemma insertBy_stable x l :
  Forall (λ y, ¬ (similarity x < similarity y)%Q) l →
  insertBy bySimilarity x l = x :: l.
Proof.
  destruct 1 as [|y l Hy _]; simpl; [done|].
  destruct (isPositive _) eqn:E; [|done].
  by apply isPositive_bySimilarity in E.
Qed.



(** ** Running handler code *)

Ltac js_unfold :=
  unfold mbind, JS_bind, mret, JS_ret, throw, try_catch, readProducts.

Lemma randomVector_run n ps g :
  randomVector n {| sampleProducts := ps; rng := g |}
  = (Normal (vectorOf n g), {| sampleProducts := ps; rng := advance n g |}).
Proof.
  revert g; induction n as [|n IH]; intros g; [done|].
  simpl. js_unfold. unfold Math_random. simpl.
  change (λ n0, g (S n0)) with (advance 1 g). by rewrite IH.
Qed.

Lemma createRandomVector_run ps g :
  createRandomVector {| sampleProducts := ps; rng := g |}
  = (Normal (vectorOf 512 g), {| sampleProducts := ps; rng := advance 512 g |}).
Proof. apply randomVector_run. Qed.

Lemma mapJS_scores l ps g :
  mapJS withRandomSimilarity l {| sampleProducts := ps; rng := g |}
  = (Normal (scoresOf g l),
     {| sampleProducts := ps; rng := advance (length l) g |}).
Proof.
  revert g; induction l as [|p l IH]; intros g; [done|].
  simpl. js_unfold. unfold withRandomSimilarity, Math_random. js_unfold. simpl.
  change (λ n0, g (S n0)) with (advance 1 g). by rewrite IH.
Qed.

Lemma scoresOf_products g l : scored_product <$> scoresOf g l = l.
Proof. revert g; induction l as [|p l IH]; intros g; simpl; [done|]. by rewrite IH. Qed.


Lemma titlePredicate_inv query p σ r σ' :
  titlePredicate query p σ = (r, σ') →
  σ' = σ ∧ ∀ b, r = Normal b → b = matchesTitle query p.
Proof.
  unfold titlePredicate, toLowerCaseOf, matchesTitle. js_unfold.
  destruct (title p), query; intros [= <- <-]; split; congruence.
Qed.

Lemma textPredicate_inv query p σ r σ' :
  textPredicate query p σ = (r, σ') →
  σ' = σ ∧ ∀ b, r = Normal b → b = matchesText query p.
Proof.
  unfold textPredicate, toLowerCaseOf, matchesText, matchesTitle, matchesDescription.
  js_unfold.
  destruct (title p), query; try (intros [= <- <-]; split; congruence).
  destruct (includes _ _); simpl; [intros [= <- <-]; split; congruence|].
  destruct (description p); intros [= <- <-]; split; congruence.
Qed.

(** A callback that leaves the server alone makes [filter] leave it alone,
    and a normal completion of [filter] is the list of the elements on which
    the callback decided [true]. *)
Lemma filterJS_inv {A} (f : A → JS bool) (m : A → bool) l :
  (∀ x σ r σ', f x σ = (r, σ') → σ' = σ ∧ ∀ b, r = Normal b → b = m x) →
  ∀ σ r σ', filterJS f l σ = (r, σ') →
    σ' = σ ∧ ∀ rs, r = Normal rs → rs = filter (λ x, m x) l.
Proof.
  intros Hf. induction l as [|x l IH]; intros σ r σ'; simpl.
  - js_unfold. intros [= <- <-]. split; [done|]. by intros rs [= <-].
  - js_unfold. destruct (f x σ) as [[b|e] σ1] eqn:Ex.
    + destruct (Hf _ _ _ _ Ex) as [-> Hb]. specialize (Hb b eq_refl) as ->.
      destruct (filterJS f l σ) as [[ys|e] σ2] eqn:El.
      * destruct (IH _ _ _ El) as [-> Hys]. specialize (Hys ys eq_refl) as ->.
        intros [= <- <-]. split; [done|]. intros rs [= <-].
        rewrite filter_cons. destruct (m x); by case_decide.
      * destruct (IH _ _ _ El) as [-> _]. intros [= <- <-]. by split.
    + destruct (Hf _ _ _ _ Ex) as [-> _]. intros [= <- <-]. by split.
Qed.

Lemma filterJS_total {A} (f : A → JS bool) (m : A → bool) l σ :
  (∀ x, x ∈ l → f x σ = (Normal (m x), σ)) →
  filterJS f l σ = (Normal (filter (λ x, m x) l), σ).
Proof.
  induction l as [|x l IH]; intros Hf; simpl; [done|].
  js_unfold. rewrite (Hf x) by left. fold (filterJS f l).
  rewrite IH by (intros; apply Hf; by right).
  rewrite filter_cons. destruct (m x); by case_decide.
Qed.

Lemma titlePredicate_textual q p σ :
  (∃ t, title p = VStr t) →
  titlePredicate (VStr q) p σ = (Normal (matchesTitle (VStr q) p), σ).
Proof.
  intros [t Ht]. unfold titlePredicate, matchesTitle, toLowerCaseOf. js_unfold.
  by rewrite Ht.
Qed.

Lemma textPredicate_textual q p σ :
  textual p →
  textPredicate (VStr q) p σ = (Normal (matchesText (VStr q) p), σ).
Proof.
  intros [[t Ht] [d Hd]].
  unfold textPredicate, matchesText, matchesTitle, matchesDescription, toLowerCaseOf.
  js_unfold. rewrite Ht, Hd. by destruct (includes _ _).
Qed.

(** ** The three branches of the search handler *)

Lemma textBranch_inv query σ r σ' :
  textBranch query σ = (r, σ') →
  σ' = σ ∧ ∀ hs, r = Normal hs →
    hs = Plain <$> filter (λ p, matchesText query p) (sampleProducts σ).
Proof.
  unfold textBranch. js_unfold.
  destruct (filterJS _ _ σ) as [[rs|e] σ1] eqn:E; intros [= <- <-];
    destruct (filterJS_inv _ (matchesText query) _ (textPredicate_inv query) _ _ _ E)
      as [-> Hrs]; (split; [done|]).
  - intros hs [= <-]. by rewrite (Hrs rs eq_refl).
  - done.
Qed.

Lemma textBranch_textual q σ :
  Forall textual (sampleProducts σ) →
  textBranch (VStr q) σ
  = (Normal (Plain <$> filter (λ p, matchesText (VStr q) p) (sampleProducts σ)), σ).
Proof.
  intros Hps. unfold textBranch. js_unfold.
  rewrite (filterJS_total _ (matchesText (VStr q))); [done|].
  intros p Hp. apply textPredicate_textual.
  rewrite Forall_forall in Hps. by apply Hps.
Qed.

Lemma semanticBranch_run ps g :
  semanticBranch {| sampleProducts := ps; rng := g |}
  = (Normal (Ranked <$> semanticResults ps g),
     {| sampleProducts := ps; rng := advance (length ps) g |}).
Proof.
  unfold semanticBranch. js_unfold. simpl. by rewrite mapJS_scores.
Qed.

Lemma hybridBranch_inv query ps g r σ' :
  hybridBranch query {| sampleProducts := ps; rng := g |} = (r, σ') →
  (∃ e, r = Throw e ∧ σ' = {| sampleProducts := ps; rng := g |}) ∨
  (r = Normal (hybridResults query ps g) ∧
   σ' = {| sampleProducts := ps; rng := advance (length ps) g |}).
Proof.
  unfold hybridBranch. js_unfold. simpl.
  destruct (filterJS _ _ _) as [[rs|e] σ1] eqn:E;
    destruct (filterJS_inv _ (matchesTitle query) _ (titlePredicate_inv query) _ _ _ E)
      as [-> Hrs].
  - rewrite mapJS_scores. intros [= <- <-]. right.
    by rewrite (Hrs rs eq_refl).
  - intros [= <- <-]. left. by exists e.
Qed.

Lemma hybridBranch_textual q ps g :
  Forall (λ p, ∃ t, title p = VStr t) ps →
  hybridBranch (VStr q) {| sampleProducts := ps; rng := g |}
  = (Normal (hybridResults (VStr q) ps g),
     {| sampleProducts := ps; rng := advance (length ps) g |}).
Proof.
  intros Hps. unfold hybridBranch. js_unfold. simpl.
  rewrite (filterJS_total _ (matchesTitle (VStr q))).
  - by rewrite mapJS_scores.
  - intros p Hp. apply titlePredicate_textual.
    rewrite Forall_forall in Hps. by apply Hps.
Qed.

(** ** The search handler *)

Lemma strictEqStr_spec v s : strictEqStr v s = true ↔ v = VStr s.
Proof.
  destruct v; simpl; try (split; [discriminate | congruence]).
  rewrite String.eqb_eq. split; congruence.
Qed.

Lemma strictEqStr_false v s : v ≠ VStr s → strictEqStr v s = false.
Proof.
  intros H. destruct (strictEqStr v s) eqn:E; [|done].
  by apply strictEqStr_spec in E.
Qed.

Lemma searchHandler_rejects reqBody σ :
  truthy (prop reqBody "query") = false →
  searchHandler reqBody σ = (Normal queryRequired, σ).
Proof. intros H. unfold searchHandler. js_unfold. by rewrite H. Qed.

Lemma searchHandler_accepts reqBody σ :
  truthy (prop reqBody "query") = true →
  let query := prop reqBody "query" in
  let searchType := propDefault reqBody "searchType" (VStr "text") in
  searchHandler reqBody σ
  = respond query searchType
      ((if strictEqStr searchType "text" then textBranch query
        else if strictEqStr searchType "semantic" then semanticBranch
        else hybridBranch query) σ).
Proof.
  intros H. cbv zeta. unfold searchHandler, respond, messageTemplate. js_unfold.
  rewrite H. simpl.
  set (st := propDefault reqBody "searchType" (VStr "text")).
  destruct (strictEqStr st "text"); [|destruct (strictEqStr st "semantic")];
    match goal with
    | |- context [textBranch ?q σ] => destruct (textBranch q σ) as [[rs|e] σ1]
    | |- context [semanticBranch σ] => destruct (semanticBranch σ) as [[rs|e] σ1]
    | |- context [hybridBranch ?q σ] => destruct (hybridBranch q σ) as [[rs|e] σ1]
    end; try done; by destruct (toStringThrows st).
Qed.

Lemma respond_converts query searchType results σ :
  toStringThrows searchType = false →
  respond query searchType (Normal results, σ)
  = (Normal (searchOk query searchType results), σ).
Proof. intros H. simpl. by rewrite H. Qed.

Lemma respond_state query searchType c : snd (respond query searchType c) = snd c.
Proof. destruct c as [[rs|e] σ1]; simpl; [|done]. by destruct (toStringThrows _). Qed.

Lemma respond_status query searchType c :
  ∃ r σ', respond query searchType c = (Normal r, σ') ∧
          (statusCode r = 200 ∨ statusCode r = 500)%nat.
Proof.
  destruct c as [[rs|e] σ1]; simpl; [|eauto].
  destruct (toStringThrows searchType); eauto.
Qed.

(** ** Product insertion, listing and boot *)

Local Opaque createRandomVector.

Lemma addProductHandler_rejects reqBody σ :
  truthy (prop reqBody "title") = false ∨ truthy (prop reqBody "description") = false →
  addProductHandler reqBody σ = (Normal titleRequired, σ).
Proof.
  intros H. unfold addProductHandler. js_unfold.
  destruct H as [-> | ->]; simpl; [done|].
  by rewrite orb_true_r.
Qed.

Lemma addProductHandler_accepts reqBody ps g :
  truthy (prop reqBody "title") = true →
  truthy (prop reqBody "description") = true →
  addProductHandler reqBody {| sampleProducts := ps; rng := g |}
  = (Normal (created (newProductOf reqBody ps g)),
     {| sampleProducts := ps ++ [newProductOf reqBody ps g];
        rng := advance 512 (advance 512 g) |}).
Proof.
  intros Ht Hd. unfold addProductHandler. js_unfold.
  rewrite Ht, Hd. cbn [negb orb sampleProducts].
  by rewrite !createRandomVector_run.
Qed.

Lemma listProductsHandler_run σ :
  listProductsHandler σ
  = (Normal (json (ProductsBody (sampleProducts σ) (length (sampleProducts σ))
                     "Sample products (in production, fetch from Vespa)")), σ).
Proof. done. Qed.

Lemma sampleProduct_run i t d c p ps g :
  sampleProduct i t d c p {| sampleProducts := ps; rng := g |}
  = (Normal {| id := i; title := VStr t; description := VStr d;
               category := VStr c; price := VNum p;
               description_vector := vectorOf 512 g;
               title_vector := vectorOf 512 (advance 512 g) |},
     {| sampleProducts := ps; rng := advance 512 (advance 512 g) |}).
Proof. unfold sampleProduct. js_unfold. by rewrite !createRandomVector_run. Qed.

Lemma boot_products g :
  id <$> sampleProducts (boot g) = ["1"; "2"; "3"; "4"; "5"] ∧
  Forall textual (sampleProducts (boot g)).
Proof.
  unfold boot, initialProducts. js_unfold. rewrite !sampleProduct_run.
  cbn [sampleProducts fmap list_fmap id]. split; [done|].
  repeat constructor; cbn [title description]; eauto.
Qed.

Lemma searchHandler_catalog reqBody σ :
  sampleProducts (snd (searchHandler reqBody σ)) = sampleProducts σ.
Proof.
  destruct (truthy (prop reqBody "query")) eqn:Hq.
  - rewrite searchHandler_accepts, respond_state by done.
    destruct (strictEqStr _ "text"); [|destruct (strictEqStr _ "semantic")].
    + destruct (textBranch _ σ) as [[rs|e] σ1] eqn:E;
        by destruct (textBranch_inv _ _ _ _ E) as [-> _].
    + destruct σ as [ps g]. by rewrite semanticBranch_run.
    + destruct σ as [ps g].
      destruct (hybridBranch _ _) as [r σ1] eqn:E.
      by destruct (hybridBranch_inv _ _ _ _ _ E) as [[e [-> ->]] | [-> ->]].
  - by rewrite searchHandler_rejects.
Qed.

Lemma vespaStatusHandler_state net σ : snd (vespaStatusHandler net σ) = σ.
Proof. by destruct net as [e | st [s | e]]. Qed.

Lemma idsUpTo_S n : idsUpTo (S n) = idsUpTo n ++ [pretty (n + 1)%nat].
Proof. unfold idsUpTo. by rewrite seq_S, fmap_app. Qed.

(** Every reachable catalog carries the ids 1, 2, ..., n in this order. *)
Lemma reachable_ids σ :
  reachable σ → id <$> sampleProducts σ = idsUpTo (length (sampleProducts σ)).
Proof.
  induction 1 as [g | σ r Hσ IH].
  - destruct (boot_products g) as [Hids _].
    rewrite <- (length_fmap id), Hids. by vm_compute.
  - destruct r as [| b | b | net]; simpl.
    + done.
    + by rewrite searchHandler_catalog.
    + destruct (truthy (prop b "title")) eqn:Ht;
        [destruct (truthy (prop b "description")) eqn:Hd|].
      * destruct σ as [ps g]. rewrite addProductHandler_accepts by done.
        cbn [snd sampleProducts] in *.
        rewrite fmap_app, length_app, IH. cbn [length fmap list_fmap id newProductOf].
        by rewrite Nat.add_1_r, idsUpTo_S, Nat.add_1_r.
      * rewrite addProductHandler_rejects by (by right). done.
      * rewrite addProductHandler_rejects by (by left). done.
    + by rewrite vespaStatusHandler_state.
Qed.

Lemma idsUpTo_NoDup n : NoDup (idsUpTo n).
Proof.
  apply NoDup_fmap_2; [|apply NoDup_seq].
  intros a b H. apply (inj pretty) in H. lia.
Qed.

Lemma reachable_NoDup_ids σ : reachable σ → NoDup (id <$> sampleProducts σ).
Proof. intros H. rewrite (reachable_ids σ H). apply idsUpTo_NoDup. Qed.

(** ** Text mode *)

Lemma truthy_nonempty q : q ≠ "" → truthy (VStr q) = true.
Proof.
  intros H. simpl. destruct (String.eqb q "") eqn:E; [|done].
  by apply String.eqb_eq in E.
Qed.

Lemma matchesTitle_spec q p :
  matchesTitle (VStr q) p = true ↔ containsFolded (title p) q.
Proof.
  unfold matchesTitle, containsFolded. destruct (title p) as [| | | |t| |];
    try (split; [discriminate | by intros (?&?&?&?&?)]).
  rewrite includes_spec. split.
  - intros (pre & post & H). by exists t, pre, post.
  - intros (s & pre & post & [= <-] & H). by exists pre, post.
Qed.

Lemma matchesDescription_spec q p :
  matchesDescription (VStr q) p = true ↔ containsFolded (description p) q.
Proof.
  unfold matchesDescription, containsFolded. destruct (description p) as [| | | |t| |];
    try (split; [discriminate | by intros (?&?&?&?&?)]).
  rewrite includes_spec. split.
  - intros (pre & post & H). by exists t, pre, post.
  - intros (s & pre & post & [= <-] & H). by exists pre, post.
Qed.

Lemma matchesText_spec q p :
  matchesText (VStr q) p ↔
  containsFolded (title p) q ∨ containsFolded (description p) q.
Proof.
  unfold matchesText. rewrite Is_true_true, orb_true_iff.
  by rewrite matchesTitle_spec, matchesDescription_spec.
Qed.

Lemma append_empty_r s : s +:+ "" = s.
Proof.
  induction s as [|a s IH]; [done|].
  change (String a (s +:+ "") = String a s). by rewrite IH.
Qed.

Lemma containsFolded_self s : containsFolded (VStr s) s.
Proof. exists s, "", "". split; [done|]. by rewrite append_empty_r. Qed.

Lemma textPredicate_cases q p σ :
  (textFaults q p ∧ ∃ e, textPredicate (VStr q) p σ = (Throw e, σ)) ∨
  (¬ textFaults q p ∧
   textPredicate (VStr q) p σ = (Normal (matchesText (VStr q) p), σ)).
Proof.
  pose proof (matchesTitle_spec q p) as Ht.
  unfold textFaults, isText, textPredicate, toLowerCaseOf, matchesText,
    matchesTitle, matchesDescription in *. js_unfold.
  destruct (title p) as [| | | |t| |];
    try (left; split; [left; by intros [? ?] | by eexists]).
  destruct (includes (toLowerCase t) (toLowerCase q)) eqn:Ei.
  - right. split; [|done]. intros [H | [H _]].
    + apply H. by eexists.
    + apply H, Ht. done.
  - destruct (description p) as [| | | |d| |];
      try (left; split; [right; split; [intros H; apply Ht in H; discriminate
                                       | by intros [? ?]]
                        | by eexists]).
    right. split; [|done]. intros [H | [_ H]]; apply H; by eexists.
Qed.

(** A stateless callback that throws exactly on the elements satisfying
    [F]: [filter] throws exactly when the list holds such an element. *)
Lemma filterJS_cases {A} (f : A → JS bool) (m : A → bool) (F : A → Prop) l σ :
  (∀ x, (F x ∧ ∃ e, f x σ = (Throw e, σ)) ∨
        (¬ F x ∧ f x σ = (Normal (m x), σ))) →
  (Exists F l ∧ ∃ e, filterJS f l σ = (Throw e, σ)) ∨
  (¬ Exists F l ∧ filterJS f l σ = (Normal (filter (λ x, m x) l), σ)).
Proof.
  intros Hf. induction l as [|x l IH]; simpl.
  - right. split; [by intros H; inversion H | done].
  - js_unfold. destruct (Hf x) as [[HF [e ->]] | [HF ->]].
    + left. split; [by left | by exists e].
    + destruct IH as [[HE [e ->]] | [HE ->]].
      * left. split; [by right | by exists e].
      * right. split; [intros H; inversion H; subst; tauto|].
        rewrite filter_cons. destruct (m x); by case_decide.
Qed.

Lemma text_search_cases reqBody q σ :
  prop reqBody "query" = VStr q → q ≠ "" →
  propDefault reqBody "searchType" (VStr "text") = VStr "text" →
  (Exists (textFaults q) (sampleProducts σ) ∧
   searchHandler reqBody σ = (Normal searchFailed, σ)) ∨
  (¬ Exists (textFaults q) (sampleProducts σ) ∧
   searchHandler reqBody σ
   = (Normal (searchOk (VStr q) (VStr "text")
        (Plain <$> filter (λ p, matchesText (VStr q) p) (sampleProducts σ))), σ)).
Proof.
  intros Hq Hne Hst.
  rewrite searchHandler_accepts by (rewrite Hq; by apply truthy_nonempty).
  rewrite Hq, Hst. cbn [strictEqStr String.eqb Ascii.eqb Bool.eqb].
  unfold textBranch. js_unfold.
  destruct (filterJS_cases (textPredicate (VStr q)) (matchesText (VStr q))
              (textFaults q) (sampleProducts σ) σ
              (λ p, textPredicate_cases q p σ)) as [[HE [e ->]] | [HE ->]].
  - by left.
  - by right.
Qed.

(** C1 (as the handler implements it).  For every non-empty query string,
    a search in text mode leaves the server as it was and does one of two
    things.  When no product makes the filter throw -- which is the case
    whenever every title and description in the catalog is a string -- it
    answers 200 with exactly the catalog products whose title or description
    contains the query once both sides are lower-cased: the results are a
    sub-sequence of the catalog, and a product is among them if and only if
    it is in the catalog and satisfies the substring predicate.  When some
    product has a title that is not a string, or a title that does not
    contain the query and a description that is not a string, it answers
    500 "Search failed" and returns no product. *)
Theorem text_search_exact (reqBody : gmap string value) (q : string) (σ : Server) :
  prop reqBody "query" = VStr q →
  q ≠ "" →
  propDefault reqBody "searchType" (VStr "text") = VStr "text" →
  (Forall textual (sampleProducts σ) → ¬ Exists (textFaults q) (sampleProducts σ)) ∧
  ((¬ Exists (textFaults q) (sampleProducts σ) ∧
    ∃ ps : list Product,
      searchHandler reqBody σ
        = (Normal (searchOk (VStr q) (VStr "text") (Plain <$> ps)), σ) ∧
      ps `sublist_of` sampleProducts σ ∧
      ∀ p, p ∈ ps ↔
           p ∈ sampleProducts σ ∧
           (containsFolded (title p) q ∨ containsFolded (description p) q)) ∨
   (Exists (textFaults q) (sampleProducts σ) ∧
    searchHandler reqBody σ = (Normal searchFailed, σ))).
Proof.
  intros Hq Hne Hst. split.
  - intros Hcat HE. apply Exists_exists in HE as (p & Hp & Hfault).
    rewrite Forall_forall in Hcat. destruct (Hcat p Hp) as [Ht Hd].
    destruct Hfault as [H | [_ H]]; by apply H.
  - destruct (text_search_cases reqBody q σ Hq Hne Hst) as [[HE ->] | [HE ->]].
    + by right.
    + left. split; [done|].
      exists (filter (λ p, matchesText (VStr q) p) (sampleProducts σ)).
      split; [done|]. split; [apply sublist_filter|].
      intros p. rewrite list_elem_of_filter, matchesText_spec. tauto.
Qed.

Lemma text_search_exact_witness :
  let reqBody := searchRequest "IPHONE" "text" in
  let σ := boot g0 in
  (Forall textual (sampleProducts σ) →
   ¬ Exists (textFaults "IPHONE") (sampleProducts σ)) ∧
  ((¬ Exists (textFaults "IPHONE") (sampleProducts σ) ∧
    ∃ ps : list Product,
      searchHandler reqBody σ
        = (Normal (searchOk (VStr "IPHONE") (VStr "text") (Plain <$> ps)), σ) ∧
      ps `sublist_of` sampleProducts σ ∧
      ∀ p, p ∈ ps ↔
           p ∈ sampleProducts σ ∧
           (containsFolded (title p) "IPHONE" ∨ containsFolded (description p) "IPHONE")) ∨
   (Exists (textFaults "IPHONE") (sampleProducts σ) ∧
    searchHandler reqBody σ = (Normal searchFailed, σ))).
Proof.
  intros reqBody σ. apply (text_search_exact reqBody "IPHONE" σ).
  - reflexivity.
  - discriminate.
  - reflexivity.
Defined.

(** C1 (as stated) fails: the insertion handler accepts a product whose
    title is the number 5; in the state it leaves, product 1 still contains
    "iphone" in its title, yet the text search for "iphone" answers 500 and
    returns nothing. *)
Lemma text_search_misses_match :
  let σ := snd (route (PostProducts {[ "title" := VNum 5; "description" := VStr "d" ]})
                  (boot g0)) in
  reachable σ ∧
  id <$> filter (λ p, matchesText (VStr "iphone") p) (sampleProducts σ) = ["1"] ∧
  responseStatus (searchHandler (searchRequest "iphone" "text") σ) = Some 500%nat ∧
  hitsOf (searchHandler (searchRequest "iphone" "text") σ) = [].
Proof.
  intros σ. split; [apply reachable_step, reachable_boot|]. by vm_compute.
Qed.

(** On the initial catalog the three example queries of the specification
    select the iPhone, the Samsung TV and nothing. *)
Example text_search_examples :
  let σ := boot g0 in
  resultIds (searchHandler (searchRequest "iphone" "text") σ) = Some ["1"] ∧
  resultIds (searchHandler (searchRequest "tv" "text") σ) = Some ["4"] ∧
  resultIds (searchHandler (searchRequest "xyz123" "text") σ) = Some [].
Proof. by vm_compute. Qed.

(** A product stored with a title that is not a string makes the text
    filter throw; the handler then answers 500. *)
Example text_search_non_textual :
  let σ := snd (addProductHandler {[ "title" := VNum 5; "description" := VStr "d" ]} (boot g0)) in
  responseStatus (searchHandler (searchRequest "iphone" "text") σ) = Some 500%nat.
Proof. by vm_compute. Qed.

(** ** Validation and dispatch *)




(** C9. A request with a truthy query whose [searchType], after the default
    "text" has been applied to an absent one, is neither the string "text"
    nor the string "semantic" is served by the hybrid branch, whatever the
    value is, and is never answered 400: the server is left in the state the
    hybrid branch leaves; when the branch completes, the response is the 200
    search response carrying its results, unless the string conversion of
    [searchType] for the message throws, which, like a throw of the branch
    itself, gives 500 "Search failed". *)
Theorem other_modes_run_hybrid (reqBody : gmap string value) (σ : Server) :
  truthy (prop reqBody "query") = true →
  propDefault reqBody "searchType" (VStr "text") ≠ VStr "text" →
  propDefault reqBody "searchType" (VStr "text") ≠ VStr "semantic" →
  searchHandler reqBody σ
    = respond (prop reqBody "query") (propDefault reqBody "searchType" (VStr "text"))
        (hybridBranch (prop reqBody "query") σ) ∧
  snd (searchHandler reqBody σ) = snd (hybridBranch (prop reqBody "query") σ) ∧
  (∀ results σ',
     hybridBranch (prop reqBody "query") σ = (Normal results, σ') →
     searchHandler reqBody σ
     = (Normal (if toStringThrows (propDefault reqBody "searchType" (VStr "text"))
                then searchFailed
                else searchOk (prop reqBody "query")
                       (propDefault reqBody "searchType" (VStr "text")) results), σ')) ∧
  (∀ e σ',
     hybridBranch (prop reqBody "query") σ = (Throw e, σ') →
     searchHandler reqBody σ = (Normal searchFailed, σ')) ∧
  ∀ r σ', searchHandler reqBody σ = (Normal r, σ') → statusCode r ≠ 400%nat.
Proof.
  intros Hq Htext Hsem.
  assert (searchHandler reqBody σ
    = respond (prop reqBody "query") (propDefault reqBody "searchType" (VStr "text"))
        (hybridBranch (prop reqBody "query") σ)) as E.
  { rewrite searchHandler_accepts by done.
    by rewrite (strictEqStr_false _ _ Htext), (strictEqStr_false _ _ Hsem). }
  split; [done|]. rewrite E. split; [apply respond_state|].
  split; [|split].
  - intros results σ' ->. simpl. by destruct (toStringThrows _).
  - by intros e σ' ->.
  - intros r σ'.
    destruct (respond_status (prop reqBody "query")
                (propDefault reqBody "searchType" (VStr "text"))
                (hybridBranch (prop reqBody "query") σ)) as (r0 & σ0 & -> & Hst).
    intros [= <- <-]. lia.
Qed.

Lemma other_modes_run_hybrid_witness :
  let reqBody : gmap string value :=
    {[ "query" := VStr "air"; "searchType" := VStr "fuzzy" ]} in
  let σ := boot g0 in
  searchHandler reqBody σ
    = respond (prop reqBody "query") (propDefault reqBody "searchType" (VStr "text"))
        (hybridBranch (prop reqBody "query") σ) ∧
  snd (searchHandler reqBody σ) = snd (hybridBranch (prop reqBody "query") σ) ∧
  (∀ results σ',
     hybridBranch (prop reqBody "query") σ = (Normal results, σ') →
     searchHandler reqBody σ
     = (Normal (if toStringThrows (propDefault reqBody "searchType" (VStr "text"))
                then searchFailed
                else searchOk (prop reqBody "query")
                       (propDefault reqBody "searchType" (VStr "text")) results), σ')) ∧
  (∀ e σ',
     hybridBranch (prop reqBody "query") σ = (Throw e, σ') →
     searchHandler reqBody σ = (Normal searchFailed, σ')) ∧
  ∀ r σ', searchHandler reqBody σ = (Normal r, σ') → statusCode r ≠ 400%nat.
Proof.
  intros reqBody σ. apply (other_modes_run_hybrid reqBody σ).
  - reflexivity.
  - discriminate.
  - discriminate.
Defined.

(** The string conversion for the message: an object with an own
    [toString] property, or an array holding one, ends the hybrid search in
    500 after the branch has drawn its scores; other objects, arrays and
    primitives convert. *)
Example message_conversion_examples :
  let σ := boot g0 in
  let run st := searchHandler {[ "query" := VStr "air"; "searchType" := st ]} σ in
  responseStatus (run (VObj [("toString", VNum 1)])) = Some 500%nat ∧
  rng (snd (run (VObj [("toString", VNum 1)]))) 0%nat = rng σ 5%nat ∧
  responseStatus (run (VArr [VNum 1; VObj [("toString", VNull)]])) = Some 500%nat ∧
  responseStatus (run (VObj [("valueOf", VNum 1)])) = Some 200%nat ∧
  responseStatus (run (VArr [VNum 1; VNull; VObj []])) = Some 200%nat ∧
  resultIds (run (VObj [])) = Some ["2"; "3"; "4"; "1"; "5"].
Proof. by vm_compute. Qed.

(** Values that reach the hybrid branch: the mode "hybrid", a misspelled
    mode, [null] and a number; an absent mode is served as "text". *)
Example dispatch_examples :
  let σ := boot g0 in
  let ids st := resultIds (searchHandler {[ "query" := VStr "air"; "searchType" := st ]} σ) in
  ids (VStr "hybrid") = Some ["2"; "3"; "4"; "1"; "5"] ∧
  ids (VStr "Text") = Some ["2"; "3"; "4"; "1"; "5"] ∧
  ids VNull = Some ["2"; "3"; "4"; "1"; "5"] ∧
  ids (VNum 1) = Some ["2"; "3"; "4"; "1"; "5"] ∧
  resultIds (searchHandler {[ "query" := VStr "air" ]} σ) = Some ["2"; "3"] ∧
  ids (VStr "text") = Some ["2"; "3"].
Proof. by vm_compute. Qed.

(** C10. Every 200 response of the search handler is a search body whose
    [count] is the length of its [results], for every request and state. *)
Theorem search_count (reqBody : gmap string value) (σ σ' : Server) (r : Response) :
  searchHandler reqBody σ = (Normal r, σ') →
  statusCode r = 200%nat →
  ∃ query searchType results,
    body r = SearchBody query searchType results (length results).
Proof.
  destruct (truthy (prop reqBody "query")) eqn:Hq.
  - rewrite searchHandler_accepts by done.
    match goal with
    | |- respond _ _ ?c = _ → _ => destruct c as [[rs|e] σ1]
    end; simpl; [destruct (toStringThrows _)|]; intros [= <- <-];
      [discriminate | eauto | discriminate].
  - rewrite searchHandler_rejects by done. intros [= <- <-]. discriminate.
Qed.

Lemma search_count_witness :
  let reqBody := searchRequest "air" "text" in
  let r := searchOk (prop reqBody "query") (propDefault reqBody "searchType" (VStr "text"))
             (Plain <$> filter (λ p, matchesText (VStr "air") p) (sampleProducts (boot g0))) in
  ∃ query searchType results,
    body r = SearchBody query searchType results (length results).
Proof.
  intros reqBody r. apply (search_count reqBody (boot g0) (boot g0) r).
  - rewrite searchHandler_accepts by reflexivity.
    change (propDefault reqBody "searchType" (VStr "text")) with (VStr "text") at 1 2.
    change (prop reqBody "query") with (VStr "air") at 2.
    cbn [strictEqStr String.eqb Ascii.eqb Bool.eqb].
    rewrite textBranch_textual by apply boot_products. reflexivity.
  - reflexivity.
Defined.

(** ** Semantic mode *)

Lemma semanticResults_products ps g :
  scored_product <$> sortJS bySimilarity (scoresOf g ps) ≡ₚ ps.
Proof. by rewrite sortJS_Permutation, scoresOf_products. Qed.



(** ** Determinism *)

Lemma textPredicate_stateless query p σ1 σ2 :
  fst (textPredicate query p σ1) = fst (textPredicate query p σ2).
Proof.
  unfold textPredicate, toLowerCaseOf. js_unfold.
  destruct (title p), query; try done.
  destruct (includes _ _); [done|]. by destruct (description p).
Qed.

Lemma filterJS_stateless {A} (f : A → JS bool) l σ1 σ2 :
  (∀ x σ, snd (f x σ) = σ) →
  (∀ x σ σ', fst (f x σ) = fst (f x σ')) →
  fst (filterJS f l σ1) = fst (filterJS f l σ2).
Proof.
  intros Hsnd Hfst. induction l as [|x l IH]; simpl; [done|]. js_unfold.
  pose proof (Hfst x σ1 σ2) as E. pose proof (Hsnd x σ1) as E1.
  pose proof (Hsnd x σ2) as E2.
  destruct (f x σ1) as [[b1|e1] τ1], (f x σ2) as [[b2|e2] τ2];
    simpl in *; try discriminate; subst; [|by simplify_eq].
  injection E as ->.
  by destruct (filterJS f l σ1) as [[ys1|e1] τ1], (filterJS f l σ2) as [[ys2|e2] τ2];
    simplify_eq/=.
Qed.

Lemma textPredicate_state query p σ : snd (textPredicate query p σ) = σ.
Proof.
  destruct (textPredicate query p σ) as [r σ'] eqn:E.
  by destruct (textPredicate_inv _ _ _ _ _ E) as [-> _].
Qed.

(** C2 (as the handler implements it).  Text search is deterministic: on
    two servers holding the same catalog the handler gives the same response
    to the same request whenever the request is served in text mode or is
    rejected for its query, whatever the state of the random generator, and
    it leaves each server as it found it. *)
Theorem text_search_deterministic (reqBody : gmap string value) (σ1 σ2 : Server) :
  sampleProducts σ1 = sampleProducts σ2 →
  truthy (prop reqBody "query") = false ∨
    propDefault reqBody "searchType" (VStr "text") = VStr "text" →
  fst (searchHandler reqBody σ1) = fst (searchHandler reqBody σ2) ∧
  snd (searchHandler reqBody σ1) = σ1 ∧
  snd (searchHandler reqBody σ2) = σ2.
Proof.
  intros Hcat Hmode. destruct (truthy (prop reqBody "query")) eqn:Hq.
  - destruct Hmode as [? | Hst]; [done|].
    rewrite !searchHandler_accepts by done. rewrite Hst.
    cbn [strictEqStr String.eqb Ascii.eqb Bool.eqb].
    assert (fst (textBranch (prop reqBody "query") σ1)
            = fst (textBranch (prop reqBody "query") σ2)) as E.
    { unfold textBranch. js_unfold. rewrite Hcat.
      pose proof (filterJS_stateless (textPredicate (prop reqBody "query"))
                    (sampleProducts σ2) σ1 σ2
                    (textPredicate_state _) (textPredicate_stateless _)) as E.
      by destruct (filterJS _ _ σ1) as [[ys1|e1] τ1], (filterJS _ _ σ2) as [[ys2|e2] τ2];
        simplify_eq/=. }
    destruct (textBranch _ σ1) as [r1 τ1] eqn:E1, (textBranch _ σ2) as [r2 τ2] eqn:E2.
    apply textBranch_inv in E1 as [-> _], E2 as [-> _]. simpl in E. subst r2.
    by destruct r1.
  - by rewrite !searchHandler_rejects.
Qed.

Lemma text_search_deterministic_witness :
  let reqBody := searchRequest "air" "text" in
  let σ1 := boot g0 in
  let σ2 := {| sampleProducts := sampleProducts (boot g0); rng := λ _, 1%Q |} in
  fst (searchHandler reqBody σ1) = fst (searchHandler reqBody σ2) ∧
  snd (searchHandler reqBody σ1) = σ1 ∧
  snd (searchHandler reqBody σ2) = σ2.
Proof.
  intros reqBody σ1 σ2. apply (text_search_deterministic reqBody σ1 σ2).
  - vm_compute. reflexivity.
  - right. reflexivity.
Defined.

(** C2 (as stated) fails: the same semantic request served twice in a row,
    the catalog being the same both times, returns two different result
    lists; so does the same hybrid request. *)
Lemma search_twice_differs :
  let σ0 := boot g0 in
  let semantic := searchRequest "laptop" "semantic" in
  let hybrid := searchRequest "laptop" "hybrid" in
  let σ1 := snd (searchHandler semantic σ0) in
  let σ2 := snd (searchHandler hybrid σ0) in
  sampleProducts σ1 = sampleProducts σ0 ∧
  resultIds (searchHandler semantic σ0) = Some ["4"; "3"; "2"] ∧
  resultIds (searchHandler semantic σ1) = Some ["5"; "4"; "3"] ∧
  sampleProducts σ2 = sampleProducts σ0 ∧
  resultIds (searchHandler hybrid σ0) = Some ["4"; "3"; "2"; "1"; "5"] ∧
  resultIds (searchHandler hybrid σ2) = Some ["5"; "4"; "3"; "2"; "1"].
Proof.
  intros σ0 semantic hybrid σ1 σ2.
  split; [apply searchHandler_catalog|]. do 2 (split; [by vm_compute|]).
  split; [apply searchHandler_catalog|]. split; by vm_compute.
Qed.

(** ** Hybrid mode *)

Lemma hitId_Plain (l : list Product) : hitId <$> (Plain <$> l) = id <$> l.
Proof. by rewrite <- list_fmap_compose. Qed.

Lemma hitId_Ranked (l : list Scored) :
  hitId <$> (Ranked <$> l) = id <$> (scored_product <$> l).
Proof. by rewrite <- !list_fmap_compose. Qed.

Lemma hybridResults_NoDup query ps g :
  NoDup (id <$> ps) → NoDup (hitId <$> hybridResults query ps g).
Proof.
  intros Hnd. unfold hybridResults. rewrite fmap_take.
  eapply sublist_NoDup; [|apply sublist_take].
  rewrite fmap_app, hitId_Plain, hitId_Ranked. apply NoDup_app. split; [|split].
  - eapply sublist_NoDup; [exact Hnd|]. apply fmap_sublist, sublist_filter.
  - intros i Hi Hi'. apply list_elem_of_fmap in Hi' as (p & -> & Hp).
    apply list_elem_of_fmap in Hp as (s & -> & Hs).
    apply list_elem_of_filter in Hs as [Hs _]. apply Hs.
    by apply elem_of_list_to_set.
  - eapply sublist_NoDup; [|apply fmap_sublist, fmap_sublist, sublist_filter].
    by rewrite semanticResults_products.
Qed.

(** C5. In every state the server can reach, a search with a truthy query
    served by the hybrid branch never answers with a result list in which a
    product id occurs twice; and when the query is a string, every title in
    the catalog is a string and [searchType] is a value whose string
    conversion completes (any string, such as "hybrid"), it does answer 200
    with such a list. *)
Theorem hybrid_no_duplicate_ids (reqBody : gmap string value) (σ : Server) :
  reachable σ →
  truthy (prop reqBody "query") = true →
  propDefault reqBody "searchType" (VStr "text") ≠ VStr "text" →
  propDefault reqBody "searchType" (VStr "text") ≠ VStr "semantic" →
  (∀ r σ' query searchType results count,
     searchHandler reqBody σ = (Normal r, σ') →
     body r = SearchBody query searchType results count →
     NoDup (hitId <$> results)) ∧
  ((∃ q, prop reqBody "query" = VStr q) →
   Forall (λ p, ∃ t, title p = VStr t) (sampleProducts σ) →
   toStringThrows (propDefault reqBody "searchType" (VStr "text")) = false →
   ∃ results σ',
     searchHandler reqBody σ
       = (Normal (searchOk (prop reqBody "query")
                    (propDefault reqBody "searchType" (VStr "text")) results), σ') ∧
     NoDup (hitId <$> results)).
Proof.
  intros Hreach Hq Htext Hsem.
  apply reachable_NoDup_ids in Hreach. destruct σ as [ps g].
  rewrite searchHandler_accepts by done.
  rewrite (strictEqStr_false _ _ Htext), (strictEqStr_false _ _ Hsem).
  cbn [sampleProducts] in *. split.
  - intros r σ' query searchType results count.
    destruct (hybridBranch _ _) as [c σ1] eqn:E.
    destruct (hybridBranch_inv _ _ _ _ _ E) as [[e [-> ->]] | [-> ->]]; simpl.
    + intros [= <- <-]. discriminate.
    + destruct (toStringThrows _); intros [= <- <-]; [discriminate|].
      intros [= <- <- <- <-]. by apply hybridResults_NoDup.
  - intros [q Hstr] Htitles Hconv. rewrite Hstr.
    rewrite hybridBranch_textual, respond_converts by done.
    eexists _, _. split; [reflexivity|]. by apply hybridResults_NoDup.
Qed.

Lemma hybrid_no_duplicate_ids_witness :
  let reqBody := searchRequest "air" "hybrid" in
  (∀ r σ' query searchType results count,
     searchHandler reqBody (boot g0) = (Normal r, σ') →
     body r = SearchBody query searchType results count →
     NoDup (hitId <$> results)) ∧
  ((∃ q, prop reqBody "query" = VStr q) →
   Forall (λ p, ∃ t, title p = VStr t) (sampleProducts (boot g0)) →
   toStringThrows (propDefault reqBody "searchType" (VStr "text")) = false →
   ∃ results σ',
     searchHandler reqBody (boot g0)
       = (Normal (searchOk (prop reqBody "query")
                    (propDefault reqBody "searchType" (VStr "text")) results), σ') ∧
     NoDup (hitId <$> results)).
Proof.
  intros reqBody. apply (hybrid_no_duplicate_ids reqBody (boot g0)).
  - apply reachable_boot.
  - reflexivity.
  - discriminate.
  - discriminate.
Defined.

(** Lexical matches come first: both titles containing "air", in catalog
    order, then the remaining products by descending score. *)
Example hybrid_air :
  resultIds (searchHandler (searchRequest "air" "hybrid") (boot g0))
  = Some ["2"; "3"; "4"; "1"; "5"].
Proof. by vm_compute. Qed.

(** C6 fails on the code: the hybrid branch matches the query against the
    title only.  "shoes" occurs in the description of product 3 and in no
    title; text search returns product 3, but hybrid search places it
    behind a product that does not match, and on a catalog of six products
    it can drop it from the five results altogether. *)
Theorem hybrid_ignores_description_match :
  let σ0 := boot g0 in
  let σ1 := snd (addProductHandler (productRequest "Desk Lamp" "Dimmable LED lamp") σ0) in
  resultIds (searchHandler (searchRequest "shoes" "text") σ0) = Some ["3"] ∧
  resultIds (searchHandler (searchRequest "shoes" "hybrid") σ0)
    = Some ["4"; "3"; "2"; "1"; "5"] ∧
  resultIds (searchHandler (searchRequest "shoes" "text") σ1) = Some ["3"] ∧
  resultIds (searchHandler (searchRequest "shoes" "hybrid") σ1)
    = Some ["2"; "1"; "6"; "5"; "4"].
Proof. by vm_compute. Qed.

(** ** Product insertion *)

Lemma emptyOrMissing_falsy v : emptyOrMissing v → truthy v = false.
Proof. by intros [-> | ->]. Qed.

Lemma nonEmptyText_truthy v : nonEmptyText v → truthy v = true.
Proof. intros (s & -> & Hs). by apply truthy_nonempty. Qed.

(** C7. [addProduct] answers 400 and leaves the server as it was when the
    title or the description is missing or the empty string.  When both are
    non-empty strings it answers 201 with the new product, which carries
    the given title and description and has been appended to the catalog, so
    that the listing served afterwards contains it. *)
Theorem addProduct_validation (reqBody : gmap string value) (σ : Server) :
  (emptyOrMissing (prop reqBody "title") ∨ emptyOrMissing (prop reqBody "description") →
   addProductHandler reqBody σ = (Normal titleRequired, σ)) ∧
  (nonEmptyText (prop reqBody "title") →
   nonEmptyText (prop reqBody "description") →
   ∃ (p : Product) (σ' : Server),
     addProductHandler reqBody σ = (Normal (created p), σ') ∧
     title p = prop reqBody "title" ∧
     description p = prop reqBody "description" ∧
     sampleProducts σ' = sampleProducts σ ++ [p] ∧
     ∃ products count msg,
       listProductsHandler σ' = (Normal (json (ProductsBody products count msg)), σ') ∧
       p ∈ products).
Proof.
  split.
  - intros H. apply addProductHandler_rejects.
    destruct H as [H | H]; apply emptyOrMissing_falsy in H; auto.
  - intros Ht Hd. apply nonEmptyText_truthy in Ht, Hd. destruct σ as [ps g].
    eexists _, _. split; [by apply addProductHandler_accepts|].
    split; [done|]. split; [done|]. split; [done|].
    eexists _, _, _. split; [apply listProductsHandler_run|].
    cbn [sampleProducts]. apply elem_of_app. right. by apply list_elem_of_singleton.
Qed.

Lemma addProduct_validation_witness :
  let σ := boot g0 in
  (let reqBody := productRequest "" "x" in
   addProductHandler reqBody σ = (Normal titleRequired, σ)) ∧
  (let reqBody := productRequest "T" "D" in
   ∃ (p : Product) (σ' : Server),
     addProductHandler reqBody σ = (Normal (created p), σ') ∧
     title p = prop reqBody "title" ∧
     description p = prop reqBody "description" ∧
     sampleProducts σ' = sampleProducts σ ++ [p] ∧
     ∃ products count msg,
       listProductsHandler σ' = (Normal (json (ProductsBody products count msg)), σ') ∧
       p ∈ products).
Proof.
  intros σ. split.
  - intros reqBody. apply (addProduct_validation reqBody σ).
    left. right. reflexivity.
  - intros reqBody. apply (addProduct_validation reqBody σ).
    + exists "T". split; [reflexivity | discriminate].
    + exists "D". split; [reflexivity | discriminate].
Defined.

(** The two calls of the specification's example, and the id given to the
    sixth product. *)
Example addProduct_examples :
  let σ := boot g0 in
  responseStatus (addProductHandler (productRequest "" "x") σ) = Some 400%nat ∧
  responseStatus (addProductHandler {[ "description" := VStr "x" ]} σ) = Some 400%nat ∧
  responseStatus (addProductHandler (productRequest "T" "D") σ) = Some 201%nat ∧
  id <$> sampleProducts (snd (addProductHandler (productRequest "T" "D") σ))
    = ["1"; "2"; "3"; "4"; "5"; "6"].
Proof. by vm_compute. Qed.

(** ** The status probe *)

(** C8. Whatever the network does with the probe, the status handler
    completes normally with a 200 response whose body is a status object,
    and leaves the server untouched; when [fetch] rejects or reading the
    body rejects, the object says [connected: false]. *)
Theorem vespaStatus_never_throws (net : FetchOutcome) (σ : Server) :
  ∃ r : Response,
    vespaStatusHandler net σ = (Normal r, σ) ∧
    statusCode r = 200%nat ∧
    (∃ c, connectedOf (body r) = Some c) ∧
    (transportFailure net → connectedOf (body r) = Some false).
Proof.
  destruct net as [e | st [s | e]]; eexists; (split; [reflexivity|]); simpl;
    (split; [done|]); (split; [by eexists|]); done.
Qed.

(** The probe reports a connection exactly when the engine answers 200
    with a readable body. *)
Lemma vespaStatus_connected net σ r σ' :
  vespaStatusHandler net σ = (Normal r, σ') →
  connectedOf (body r) = Some true ↔ ∃ s, net = Resolves 200 (TextOk s).
Proof.
  destruct net as [e | st [s | e]]; intros [= <- <-]; simpl.
  - split; [discriminate | by intros [? ?]].
  - split.
    + intros [= H]. apply Nat.eqb_eq in H as ->. by exists s.
    + by intros [? [= -> ->]].
  - split; [discriminate | by intros [? ?]].
Qed.

(** * Further properties of the handlers *)

(** ** Random vectors and the shape of the catalog *)

Lemma unitDraws_advance k g : unitDraws g → unitDraws (advance k g).
Proof. intros H n. apply H. Qed.

Lemma g0_unitDraws : unitDraws g0.
Proof.
  intros n. unfold g0, Qle, Qlt. simpl.
  pose proof (Nat.mod_upper_bound n 7). lia.
Qed.

Lemma vectorOf_length n g : length (vectorOf n g) = n.
Proof. revert g; induction n as [|n IH]; intros g; simpl; [done|]. by rewrite IH. Qed.

Lemma vectorOf_range n g :
  unitDraws g → Forall (λ x, (-1 <= x)%Q ∧ (x < 1)%Q) (vectorOf n g).
Proof.
  revert g; induction n as [|n IH]; intros g Hg; simpl; constructor.
  - destruct (Hg 0%nat). split; lra.
  - by apply IH, unitDraws_advance.
Qed.

(** X1. [createRandomVector] always completes normally: it returns exactly
    512 components, takes exactly 512 draws from the generator and leaves
    the catalog alone; with draws in [0, 1) every component lies in
    [-1, 1). *)
Theorem createRandomVector_shape (ps : list Product) (g : Rng) :
  unitDraws g →
  ∃ v : list Q,
    createRandomVector {| sampleProducts := ps; rng := g |}
      = (Normal v, {| sampleProducts := ps; rng := advance 512 g |}) ∧
    length v = 512%nat ∧
    Forall (λ x, (-1 <= x)%Q ∧ (x < 1)%Q) v.
Proof.
  intros Hg. exists (vectorOf 512 g).
  split; [apply createRandomVector_run|].
  split; [apply vectorOf_length | by apply vectorOf_range].
Qed.

Lemma createRandomVector_shape_witness :
  ∃ v : list Q,
    createRandomVector {| sampleProducts := []; rng := g0 |}
      = (Normal v, {| sampleProducts := []; rng := advance 512 g0 |}) ∧
    length v = 512%nat ∧
    Forall (λ x, (-1 <= x)%Q ∧ (x < 1)%Q) v.
Proof.
  apply (createRandomVector_shape [] g0).
  intros n. unfold g0, Qle, Qlt. simpl.
  pose proof (Nat.mod_upper_bound n 7). lia.
Defined.

Lemma boot_vectors g : Forall vectorsOk (sampleProducts (boot g)).
Proof.
  unfold boot, initialProducts. js_unfold. rewrite !sampleProduct_run.
  cbn [sampleProducts].
  repeat constructor; cbn [description_vector title_vector]; apply vectorOf_length.
Qed.

(** What a request does to the catalog: nothing, or, for an accepted
    insertion, one product appended. *)
Lemma route_catalog_cases r σ :
  sampleProducts (snd (route r σ)) = sampleProducts σ ∨
  ∃ b, r = PostProducts b ∧
       truthy (prop b "title") = true ∧
       truthy (prop b "description") = true ∧
       sampleProducts (snd (route r σ))
         = sampleProducts σ ++ [newProductOf b (sampleProducts σ) (rng σ)].
Proof.
  destruct r as [| b | b | net]; simpl.
  - by left.
  - left. apply searchHandler_catalog.
  - destruct (truthy (prop b "title")) eqn:Ht;
      [destruct (truthy (prop b "description")) eqn:Hd|].
    + right. exists b. destruct σ as [ps g].
      by rewrite addProductHandler_accepts.
    + left. by rewrite addProductHandler_rejects by (by right).
    + left. by rewrite addProductHandler_rejects by (by left).
  - left. by rewrite vespaStatusHandler_state.
Qed.

(** X2. Every product of every catalog the server can hold carries two
    vectors of exactly 512 components. *)
Theorem catalog_vectors_512 (σ : Server) :
  reachable σ → Forall vectorsOk (sampleProducts σ).
Proof.
  induction 1 as [g | σ r Hσ IH]; [apply boot_vectors|].
  destruct (route_catalog_cases r σ) as [-> | (b & _ & _ & _ & ->)]; [done|].
  apply Forall_app. split; [done|]. constructor; [|done].
  split; apply vectorOf_length.
Qed.

Lemma catalog_vectors_512_witness :
  let σ := snd (route (PostProducts (productRequest "T" "D")) (boot g0)) in
  Forall vectorsOk (sampleProducts σ).
Proof.
  intros σ. apply (catalog_vectors_512 σ).
  apply reachable_step, reachable_boot.
Defined.

(** X3. In every reachable catalog the product at index [i] has the id
    [i + 1] written in decimal. *)
Theorem catalog_ids_sequential (σ : Server) (i : nat) :
  reachable σ →
  id <$> (sampleProducts σ !! i)
  = if decide (i < length (sampleProducts σ))%nat then Some (pretty (i + 1)%nat) else None.
Proof.
  intros Hσ. rewrite <- list_lookup_fmap, (reachable_ids σ Hσ). unfold idsUpTo.
  rewrite list_lookup_fmap. case_decide as Hi.
  - by rewrite lookup_seq_lt.
  - by rewrite lookup_seq_ge by lia.
Qed.

Lemma catalog_ids_sequential_witness :
  let σ := boot g0 in
  id <$> (sampleProducts σ !! 2%nat)
  = if decide (2 < length (sampleProducts σ))%nat then Some (pretty (2 + 1)%nat) else None.
Proof.
  intros σ. apply (catalog_ids_sequential σ 2). apply reachable_boot.
Defined.

(** X4. Every request is answered, and the catalog only ever grows at its
    end: a 201 response comes from an insertion and appends exactly the
    product it reports; any other response leaves the catalog as it was. *)
Theorem catalog_append_only (r : Request) (σ : Server) :
  ∃ (resp : Response) (σ' : Server),
    route r σ = (Normal resp, σ') ∧
    ((statusCode resp = 201%nat ∧
      ∃ b p, r = PostProducts b ∧ resp = created p ∧
             sampleProducts σ' = sampleProducts σ ++ [p]) ∨
     (statusCode resp ≠ 201%nat ∧ sampleProducts σ' = sampleProducts σ)).
Proof.
  destruct r as [| b | b | net]; simpl.
  - eexists _, _. split; [apply listProductsHandler_run|]. right. by split.
  - pose proof (searchHandler_catalog b σ) as Hcat.
    destruct (truthy (prop b "query")) eqn:Hq.
    + rewrite searchHandler_accepts in * by done.
      match goal with
      | |- context [respond ?q ?t ?c] =>
          destruct (respond_status q t c) as (resp & σ' & E & Hst)
      end.
      rewrite E in *. eexists _, _. split; [done|]. right.
      split; [lia | done].
    + rewrite searchHandler_rejects by done. eexists _, _. split; [done|].
      right. by split.
  - destruct (truthy (prop b "title")) eqn:Ht;
      [destruct (truthy (prop b "description")) eqn:Hd|].
    + destruct σ as [ps g]. rewrite addProductHandler_accepts by done.
      eexists _, _. split; [done|]. left. split; [done|]. by eexists _, _.
    + rewrite addProductHandler_rejects by (by right).
      eexists _, _. split; [done|]. right. by split.
    + rewrite addProductHandler_rejects by (by left).
      eexists _, _. split; [done|]. right. by split.
  - destruct net as [e | st [s | e]]; eexists _, _; (split; [reflexivity|]);
      right; by split.
Qed.

(** X5. The five products the module starts with are never removed or
    reordered: every reachable catalog begins with the catalog of some boot
    and so holds at least five products. *)
Theorem initial_products_persist (σ : Server) :
  reachable σ →
  ∃ g, sampleProducts (boot g) `prefix_of` sampleProducts σ ∧
       (5 ≤ length (sampleProducts σ))%nat.
Proof.
  induction 1 as [g | σ r Hσ (g & Hpre & Hlen)].
  - exists g. split; [done|].
    destruct (boot_products g) as [Hids _].
    rewrite <- (length_fmap id), Hids. simpl. lia.
  - exists g.
    destruct (route_catalog_cases r σ) as [-> | (b & _ & _ & _ & ->)]; [done|].
    split; [by apply prefix_app_r|]. rewrite length_app. lia.
Qed.

Lemma initial_products_persist_witness :
  let σ := snd (route (PostProducts (productRequest "T" "D")) (boot g0)) in
  ∃ g, sampleProducts (boot g) `prefix_of` sampleProducts σ ∧
       (5 ≤ length (sampleProducts σ))%nat.
Proof.
  intros σ. apply (initial_products_persist σ).
  apply reachable_step, reachable_boot.
Defined.

(** ** What the handlers do to the server *)

(** X6. A search never touches the catalog and draws from the generator
    either nothing or one number per product: nothing when the query is
    rejected or the request is served in text mode, exactly one draw per
    product in semantic mode. *)
Theorem search_draws (reqBody : gmap string value) (ps : list Product) (g : Rng) :
  let σ := {| sampleProducts := ps; rng := g |} in
  let σ' := snd (searchHandler reqBody σ) in
  (σ' = σ ∨ σ' = {| sampleProducts := ps; rng := advance (length ps) g |}) ∧
  (truthy (prop reqBody "query") = false ∨
   propDefault reqBody "searchType" (VStr "text") = VStr "text" → σ' = σ) ∧
  (truthy (prop reqBody "query") = true →
   propDefault reqBody "searchType" (VStr "text") = VStr "semantic" →
   σ' = {| sampleProducts := ps; rng := advance (length ps) g |}).
Proof.
  cbv zeta. destruct (truthy (prop reqBody "query")) eqn:Hq.
  - rewrite searchHandler_accepts, respond_state by done.
    destruct (strictEqStr _ "text") eqn:Et;
      [|destruct (strictEqStr _ "semantic") eqn:Es].
    + destruct (textBranch _ _) as [[rs|e] σ1] eqn:E;
        destruct (textBranch_inv _ _ _ _ E) as [-> _]; simpl;
        (split; [by left|]); (split; [done|]);
        intros _ Hs; rewrite Hs in Et; discriminate.
    + rewrite semanticBranch_run. simpl. split; [by right|]. split; [|done].
      intros [? | Ht]; [done|]. rewrite Ht in Et. discriminate.
    + destruct (hybridBranch _ _) as [c σ1] eqn:E.
      destruct (hybridBranch_inv _ _ _ _ _ E) as [[e [-> ->]] | [-> ->]]; simpl.
      * split; [by left|]. split; [done|].
        intros _ Hs. rewrite Hs in Es. discriminate.
      * split; [by right|]. split.
        -- intros [? | Ht]; [done|]. rewrite Ht in Et. discriminate.
        -- intros _ Hs. rewrite Hs in Es. discriminate.
  - rewrite searchHandler_rejects by done. simpl.
    split; [by left|]. split; [done|]. done.
Qed.

(** X7. No handler lets an exception escape, and the [catch] of the listing
    and insertion handlers is never entered: the listing and the status
    probe always answer 200, an insertion answers 201 when title and
    description are both truthy and 400 otherwise, and a search answers 200,
    400 or 500. *)
Theorem route_status (r : Request) (σ : Server) :
  ∃ (resp : Response) (σ' : Server),
    route r σ = (Normal resp, σ') ∧
    match r with
    | GetProducts => statusCode resp = 200%nat
    | PostSearch _ =>
        statusCode resp = 200%nat ∨ statusCode resp = 400%nat ∨ statusCode resp = 500%nat
    | PostProducts b =>
        statusCode resp
        = if truthy (prop b "title") && truthy (prop b "description")
          then 201%nat else 400%nat
    | GetVespaStatus _ => statusCode resp = 200%nat
    end.
Proof.
  destruct r as [| b | b | net]; simpl.
  - eexists _, _. split; [apply listProductsHandler_run | done].
  - destruct (truthy (prop b "query")) eqn:Hq.
    + rewrite searchHandler_accepts by done.
      match goal with
      | |- context [respond ?q ?t ?c] =>
          destruct (respond_status q t c) as (resp & σ' & -> & Hst)
      end.
      eexists _, _. split; [done|]. tauto.
    + rewrite searchHandler_rejects by done. eexists _, _. split; [done|]. auto.
  - destruct (truthy (prop b "title")) eqn:Ht;
      [destruct (truthy (prop b "description")) eqn:Hd|].
    + destruct σ as [ps g]. rewrite addProductHandler_accepts by done.
      by eexists _, _.
    + rewrite addProductHandler_rejects by (by right). by eexists _, _.
    + rewrite addProductHandler_rejects by (by left). by eexists _, _.
  - destruct net as [e | st [s | e]]; by eexists _, _.
Qed.

(** ** When a text search fails *)

(** X8. For a non-empty string query in text mode the handler answers 500
    "Search failed" exactly when the catalog holds a product whose title is
    not a string, or whose title does not contain the query and whose
    description is not a string; otherwise it answers 200.  Either way the
    server is left as it was. *)
Theorem text_search_fails_iff (reqBody : gmap string value) (q : string) (σ : Server) :
  prop reqBody "query" = VStr q →
  q ≠ "" →
  propDefault reqBody "searchType" (VStr "text") = VStr "text" →
  ∃ resp : Response,
    searchHandler reqBody σ = (Normal resp, σ) ∧
    (statusCode resp = 200%nat ∨ resp = searchFailed) ∧
    (resp = searchFailed ↔ Exists (textFaults q) (sampleProducts σ)).
Proof.
  intros Hq Hne Hst.
  destruct (text_search_cases reqBody q σ Hq Hne Hst) as [[HE ->] | [HE ->]];
    eexists; (split; [done|]).
  - split; [by right|]. done.
  - split; [by left|]. split; [discriminate | done].
Qed.

Lemma text_search_fails_iff_witness :
  let reqBody := searchRequest "iphone" "text" in
  let σ := snd (addProductHandler {[ "title" := VNum 5; "description" := VStr "d" ]} (boot g0)) in
  ∃ resp : Response,
    searchHandler reqBody σ = (Normal resp, σ) ∧
    (statusCode resp = 200%nat ∨ resp = searchFailed) ∧
    (resp = searchFailed ↔ Exists (textFaults "iphone") (sampleProducts σ)).
Proof.
  intros reqBody σ. apply (text_search_fails_iff reqBody "iphone" σ).
  - reflexivity.
  - discriminate.
  - reflexivity.
Defined.

Lemma titlePredicate_cases q p σ :
  (¬ isText (title p) ∧ ∃ e, titlePredicate (VStr q) p σ = (Throw e, σ)) ∨
  (¬ ¬ isText (title p) ∧
   titlePredicate (VStr q) p σ = (Normal (matchesTitle (VStr q) p), σ)).
Proof.
  unfold isText, titlePredicate, toLowerCaseOf, matchesTitle. js_unfold.
  destruct (title p) as [| | | |t| |];
    try (left; split; [by intros [? ?] | by eexists]).
  right. split; [|done]. intros H. apply H. by eexists.
Qed.

Lemma hybrid_search_cases reqBody q ps g :
  prop reqBody "query" = VStr q → q ≠ "" →
  propDefault reqBody "searchType" (VStr "text") ≠ VStr "text" →
  propDefault reqBody "searchType" (VStr "text") ≠ VStr "semantic" →
  (Exists (λ p, ¬ isText (title p)) ps ∧
   searchHandler reqBody {| sampleProducts := ps; rng := g |}
   = (Normal searchFailed, {| sampleProducts := ps; rng := g |})) ∨
  (¬ Exists (λ p, ¬ isText (title p)) ps ∧
   searchHandler reqBody {| sampleProducts := ps; rng := g |}
   = (Normal (if toStringThrows (propDefault reqBody "searchType" (VStr "text"))
              then searchFailed
              else searchOk (VStr q) (propDefault reqBody "searchType" (VStr "text"))
                     (hybridResults (VStr q) ps g)),
      {| sampleProducts := ps; rng := advance (length ps) g |})).
Proof.
  intros Hq Hne Htext Hsem.
  rewrite searchHandler_accepts by (rewrite Hq; by apply truthy_nonempty).
  rewrite (strictEqStr_false _ _ Htext), (strictEqStr_false _ _ Hsem), Hq.
  unfold hybridBranch. js_unfold. cbn [sampleProducts].
  destruct (filterJS_cases (titlePredicate (VStr q)) (matchesTitle (VStr q))
              (λ p, ¬ isText (title p)) ps {| sampleProducts := ps; rng := g |}
              (λ p, titlePredicate_cases q p _)) as [[HE [e ->]] | [HE ->]].
  - by left.
  - right. split; [done|]. rewrite mapJS_scores. simpl.
    by destruct (toStringThrows _).
Qed.

Lemma serve_prefix rs σ : sampleProducts σ `prefix_of` sampleProducts (serve rs σ).
Proof.
  revert σ; induction rs as [|r rs IH]; intros σ; simpl; [done|].
  etrans; [|apply IH].
  destruct (route_catalog_cases r σ) as [-> | (b & _ & _ & _ & ->)]; [done|].
  by apply prefix_app_r.
Qed.

(** X9. Insertion only checks that the title is truthy.  Once a product
    whose title is not a string (a number, [true], an array, an object) has
    been accepted, every later text or hybrid search with a non-empty string
    query is answered 500 "Search failed", whatever requests are served in
    between: the product is never removed. *)
Theorem non_text_title_breaks_search
    (addBody searchBody : gmap string value) (q : string)
    (rs : list Request) (σ : Server) :
  truthy (prop addBody "title") = true →
  ¬ isText (prop addBody "title") →
  truthy (prop addBody "description") = true →
  prop searchBody "query" = VStr q →
  q ≠ "" →
  propDefault searchBody "searchType" (VStr "text") ≠ VStr "semantic" →
  let σ1 := serve rs (snd (addProductHandler addBody σ)) in
  searchHandler searchBody σ1 = (Normal searchFailed, σ1).
Proof.
  intros Ht Hnt Hd Hq Hne Hsem σ1.
  assert (∃ p, p ∈ sampleProducts σ1 ∧ title p = prop addBody "title")
    as (p & Hp & Htitle).
  { exists (newProductOf addBody (sampleProducts σ) (rng σ)). split; [|done].
    destruct (serve_prefix rs (snd (addProductHandler addBody σ))) as [k Hk].
    subst σ1. rewrite Hk. destruct σ as [ps g].
    rewrite addProductHandler_accepts by done. cbn [snd sampleProducts rng].
    rewrite !elem_of_app. left. right. by apply list_elem_of_singleton. }
  destruct (strictEqStr (propDefault searchBody "searchType" (VStr "text")) "text")
    eqn:Htext; [apply strictEqStr_spec in Htext|].
  - destruct (text_search_cases searchBody q σ1 Hq Hne Htext) as [[_ ->] | [HE _]];
      [done|].
    exfalso. apply HE. apply Exists_exists. exists p. split; [done|].
    left. by rewrite Htitle.
  - assert (propDefault searchBody "searchType" (VStr "text") ≠ VStr "text") as Hnot.
    { intros H. apply strictEqStr_spec in H. congruence. }
    destruct σ1 as [ps1 g1].
    destruct (hybrid_search_cases searchBody q ps1 g1 Hq Hne Hnot Hsem)
      as [[_ ->] | [HE _]]; [done|].
    exfalso. apply HE. apply Exists_exists. exists p. split; [done|].
    by rewrite Htitle.
Qed.

Lemma non_text_title_breaks_search_witness :
  let addBody : gmap string value := {[ "title" := VNum 5; "description" := VStr "d" ]} in
  let searchBody := searchRequest "iphone" "text" in
  let rs := [GetProducts; PostProducts (productRequest "T" "D")] in
  let σ1 := serve rs (snd (addProductHandler addBody (boot g0))) in
  searchHandler searchBody σ1 = (Normal searchFailed, σ1).
Proof.
  intros addBody searchBody rs.
  apply (non_text_title_breaks_search addBody searchBody "iphone" rs (boot g0)).
  - reflexivity.
  - intros [s Hs]. discriminate Hs.
  - reflexivity.
  - reflexivity.
  - discriminate.
  - discriminate.
Defined.

(** ** Searching what has been inserted *)




(** ** What the result of a search depends on *)

Lemma filterJS_ext {A} (f h : A → JS bool) l σ :
  (∀ x τ, f x τ = h x τ) → filterJS f l σ = filterJS h l σ.
Proof.
  intros Hfh. revert σ; induction l as [|x l IH]; intros σ; simpl; [done|].
  js_unfold. rewrite Hfh. destruct (h x σ) as [[b|e] σ1]; [|done].
  by rewrite IH.
Qed.

Lemma textPredicate_folded q1 q2 p σ :
  toLowerCase q1 = toLowerCase q2 →
  textPredicate (VStr q1) p σ = textPredicate (VStr q2) p σ.
Proof.
  intros H. unfold textPredicate, toLowerCaseOf. js_unfold. by rewrite H.
Qed.

(** X11. Text search is insensitive to the letter case of the query: two
    non-empty queries with the same lower-case form get the same status and
    the same result list on the same server, whatever the catalog holds. *)
Theorem text_search_case_insensitive
    (body1 body2 : gmap string value) (q1 q2 : string) (σ : Server) :
  prop body1 "query" = VStr q1 → q1 ≠ "" →
  prop body2 "query" = VStr q2 → q2 ≠ "" →
  toLowerCase q1 = toLowerCase q2 →
  propDefault body1 "searchType" (VStr "text") = VStr "text" →
  propDefault body2 "searchType" (VStr "text") = VStr "text" →
  responseStatus (searchHandler body1 σ) = responseStatus (searchHandler body2 σ) ∧
  hitsOf (searchHandler body1 σ) = hitsOf (searchHandler body2 σ).
Proof.
  intros Hq1 Hne1 Hq2 Hne2 Hfold Hst1 Hst2.
  rewrite !searchHandler_accepts
    by (rewrite ?Hq1, ?Hq2; by apply truthy_nonempty).
  rewrite Hq1, Hq2, Hst1, Hst2. cbn [strictEqStr String.eqb Ascii.eqb Bool.eqb].
  unfold textBranch. js_unfold.
  rewrite (filterJS_ext (textPredicate (VStr q1)) (textPredicate (VStr q2)))
    by (intros; by apply textPredicate_folded).
  by destruct (filterJS _ _ σ) as [[rs|e] σ1].
Qed.

Lemma text_search_case_insensitive_witness :
  let body1 := searchRequest "IPhone" "text" in
  let body2 := searchRequest "iphone" "text" in
  let σ := boot g0 in
  responseStatus (searchHandler body1 σ) = responseStatus (searchHandler body2 σ) ∧
  hitsOf (searchHandler body1 σ) = hitsOf (searchHandler body2 σ).
Proof.
  intros body1 body2 σ.
  apply (text_search_case_insensitive body1 body2 "IPhone" "iphone" σ).
  - reflexivity.
  - discriminate.
  - reflexivity.
  - discriminate.
  - reflexivity.
  - reflexivity.
  - reflexivity.
Defined.

(** X12. Semantic search does not look at the query beyond checking that
    it is truthy: on the same server any two such requests get the same
    status and the same scored results and leave the same state behind. *)
Theorem semantic_ignores_query (body1 body2 : gmap string value) (σ : Server) :
  truthy (prop body1 "query") = true →
  truthy (prop body2 "query") = true →
  propDefault body1 "searchType" (VStr "text") = VStr "semantic" →
  propDefault body2 "searchType" (VStr "text") = VStr "semantic" →
  responseStatus (searchHandler body1 σ) = Some 200%nat ∧
  responseStatus (searchHandler body2 σ) = Some 200%nat ∧
  hitsOf (searchHandler body1 σ) = hitsOf (searchHandler body2 σ) ∧
  snd (searchHandler body1 σ) = snd (searchHandler body2 σ).
Proof.
  intros Hq1 Hq2 Hst1 Hst2. destruct σ as [ps g].
  rewrite !searchHandler_accepts by done. rewrite Hst1, Hst2.
  cbn [strictEqStr String.eqb Ascii.eqb Bool.eqb].
  by rewrite semanticBranch_run.
Qed.

Lemma semantic_ignores_query_witness :
  let body1 := searchRequest "laptop" "semantic" in
  let body2 : gmap string value := {[ "query" := VNum 7; "searchType" := VStr "semantic" ]} in
  let σ := boot g0 in
  responseStatus (searchHandler body1 σ) = Some 200%nat ∧
  responseStatus (searchHandler body2 σ) = Some 200%nat ∧
  hitsOf (searchHandler body1 σ) = hitsOf (searchHandler body2 σ) ∧
  snd (searchHandler body1 σ) = snd (searchHandler body2 σ).
Proof.
  intros body1 body2 σ. apply (semantic_ignores_query body1 body2 σ); reflexivity.
Defined.

(** X13. A request without [searchType] is served exactly like the same
    request with [searchType: "text"], response and state alike. *)
Theorem absent_searchType_is_text (reqBody : gmap string value) (σ : Server) :
  searchHandler (delete "searchType" reqBody) σ
  = searchHandler (<["searchType" := VStr "text"]> reqBody) σ.
Proof.
  unfold searchHandler, propDefault, prop.
  rewrite lookup_delete_eq, lookup_insert_eq.
  by rewrite lookup_delete_ne, lookup_insert_ne.
Qed.

(** ** Scores and ranking *)

Lemma scoresOf_range g ps :
  unitDraws g →
  Forall (λ s, (0 <= similarity s)%Q ∧ (similarity s < 100)%Q) (scoresOf g ps).
Proof.
  revert g; induction ps as [|p ps IH]; intros g Hg; simpl; constructor.
  - destruct (Hg 0%nat). simpl. split; lra.
  - by apply IH, unitDraws_advance.
Qed.

Lemma elem_of_take_1 {A} (x : A) n l : x ∈ take n l → x ∈ l.
Proof. intros (i & Hi & _)%elem_of_take. by eapply list_elem_of_lookup_2. Qed.

Lemma ranked_hit_scored g ps s :
  s ∈ sortJS bySimilarity (scoresOf g ps) → s ∈ scoresOf g ps.
Proof. by rewrite sortJS_Permutation. Qed.

Lemma hybridResults_Ranked query ps g s :
  Ranked s ∈ hybridResults query ps g → s ∈ scoresOf g ps.
Proof.
  unfold hybridResults. intros H%elem_of_take_1.
  apply elem_of_app in H as [H | H].
  - apply list_elem_of_fmap in H as (p & [=] & _).
  - apply list_elem_of_fmap in H as (s' & [= ->] & H).
    apply list_elem_of_filter in H as [_ H]. by apply ranked_hit_scored.
Qed.

Lemma respond_hits query searchType c h :
  h ∈ hitsOf (respond query searchType c) →
  ∃ results σ', c = (Normal results, σ') ∧ h ∈ results.
Proof.
  destruct c as [[rs|e] σ1]; simpl.
  - destruct (toStringThrows _); simpl; [by intros ?%elem_of_nil | eauto].
  - by intros ?%elem_of_nil.
Qed.

(** X14. With draws in [0, 1), every similarity a search response reports
    lies in [0, 100), in semantic and in hybrid mode alike. *)
Theorem scores_in_range (reqBody : gmap string value) (ps : list Product) (g : Rng) :
  unitDraws g →
  Forall scoreInRange (hitsOf (searchHandler reqBody {| sampleProducts := ps; rng := g |})).
Proof.
  intros Hg. pose proof (scoresOf_range g ps Hg) as Hrange.
  rewrite Forall_forall in Hrange. apply Forall_forall. intros h Hh.
  destruct h as [p | s]; [done|]. apply Hrange.
  destruct (truthy (prop reqBody "query")) eqn:Hq.
  - rewrite searchHandler_accepts in Hh by done.
    apply respond_hits in Hh as (results & σ' & E & Hh).
    destruct (strictEqStr _ "text"); [|destruct (strictEqStr _ "semantic")].
    + destruct (textBranch_inv _ _ _ _ E) as [_ Hrs].
      rewrite (Hrs results eq_refl) in Hh.
      apply list_elem_of_fmap in Hh as (p & [=] & _).
    + rewrite semanticBranch_run in E. injection E as <- <-.
      apply list_elem_of_fmap in Hh as (s' & [= ->] & Hs).
      unfold semanticResults in Hs. by apply elem_of_take_1, ranked_hit_scored in Hs.
    + destruct (hybridBranch_inv _ _ _ _ _ E) as [[e [[=] _]] | [[= ->] _]].
      by eapply hybridResults_Ranked.
  - rewrite searchHandler_rejects in Hh by done. by apply elem_of_nil in Hh.
Qed.

Lemma scores_in_range_witness :
  let reqBody := searchRequest "air" "hybrid" in
  let ps := sampleProducts (boot g0) in
  Forall scoreInRange (hitsOf (searchHandler reqBody {| sampleProducts := ps; rng := g0 |})).
Proof.
  intros reqBody ps. apply (scores_in_range reqBody ps g0).
  intros n. unfold g0, Qle, Qlt. simpl.
  pose proof (Nat.mod_upper_bound n 7). lia.
Defined.

Lemma scoredAt_spec q s : scoredAt q s ↔ (similarity s == q)%Q.
Proof. unfold scoredAt. by rewrite Is_true_true, Qeq_bool_iff. Qed.

Lemma insertBy_scoredAt q x l :
  filter (λ s, scoredAt q s) (insertBy bySimilarity x l)
  = filter (λ s, scoredAt q s) (x :: l).
Proof.
  induction l as [|y l IH]; [done|]. simpl.
  destruct (isPositive (bySimilarity x y)) eqn:E; [|done].
  apply isPositive_bySimilarity in E.
  rewrite (filter_cons _ y), IH, (filter_cons _ x (y :: l)), !(filter_cons _ _ l).
  destruct (decide (scoredAt q x)) as [Hx|Hx], (decide (scoredAt q y)) as [Hy|Hy];
    try done.
  apply scoredAt_spec in Hx, Hy. lra.
Qed.

(** X15. The ranking sort is stable: among the scored products with one
    and the same similarity the order before the sort is the order after
    it, so ties are listed in catalog order. *)
Theorem ranking_is_stable (q : Q) (l : list Scored) :
  filter (λ s, scoredAt q s) (sortJS bySimilarity l) = filter (λ s, scoredAt q s) l.
Proof.
  induction l as [|x l IH]; [done|].
  change (sortJS bySimilarity (x :: l)) with (insertBy bySimilarity x (sortJS bySimilarity l)).
  rewrite insertBy_scoredAt, !filter_cons, IH. done.
Qed.

(** ** The shape of hybrid results *)


Lemma NoDup_fmap_elem_inj {A B} (f : A → B) (l : list A) x y :
  NoDup (f <$> l) → x ∈ l → y ∈ l → f x = f y → x = y.
Proof.
  induction l as [|a l IH]; simpl; intros Hnd Hx Hy Hxy.
  - by apply elem_of_nil in Hx.
  - apply NoDup_cons in Hnd as [Ha Hnd].
    apply elem_of_cons in Hx as [-> | Hx], Hy as [-> | Hy]; [done| | |by apply IH].
    + exfalso. apply Ha. rewrite Hxy. by apply list_elem_of_fmap_2.
    + exfalso. apply Ha. rewrite <- Hxy. by apply list_elem_of_fmap_2.
Qed.

Lemma filter_ext_elem {A} (P1 P2 : A → Prop)
    `{∀ x, Decision (P1 x)} `{∀ x, Decision (P2 x)} (l : list A) :
  (∀ x, x ∈ l → P1 x ↔ P2 x) → filter P1 l = filter P2 l.
Proof.
  induction l as [|a l IH]; intros Hl; [done|].
  rewrite !filter_cons, IH by (intros; apply Hl; by right).
  pose proof (Hl a (list_elem_of_here _ _)).
  by destruct (decide (P1 a)), (decide (P2 a)); try tauto.
Qed.

Lemma scoresOf_filter_length (X : gset string) g ps :
  length (filter (λ s, id (scored_product s) ∉ X) (scoresOf g ps))
  = length (filter (λ p, id p ∉ X) ps).
Proof.
  revert g; induction ps as [|p ps IH]; intros g; [done|]. simpl.
  rewrite !filter_cons. cbn [scored_product].
  case_decide; simpl; by rewrite IH.
Qed.

Lemma filter_complement_length {A} (P : A → Prop) `{∀ x, Decision (P x)} (l : list A) :
  (length (filter P l) + length (filter (λ x, ¬ P x) l) = length l)%nat.
Proof. by rewrite <- length_app, filter_app_complement. Qed.

Lemma hybridResults_length query ps g :
  NoDup (id <$> ps) →
  length (hybridResults query ps g) = min 5 (length ps).
Proof.
  intros Hnd. unfold hybridResults.
  rewrite length_take, length_app, !length_fmap. f_equal.
  set (X := list_to_set (id <$> filter (λ p, matchesTitle query p) ps) : gset string).
  assert (filter (λ s, id (scored_product s) ∉ X) (sortJS bySimilarity (scoresOf g ps))
          ≡ₚ filter (λ s, id (scored_product s) ∉ X) (scoresOf g ps)) as ->
    by (by rewrite sortJS_Permutation).
  rewrite scoresOf_filter_length.
  rewrite (filter_ext_elem (λ p, id p ∉ X) (λ p, ¬ matchesTitle query p) ps).
  - apply filter_complement_length.
  - intros p Hp. unfold X. rewrite elem_of_list_to_set, list_elem_of_fmap.
    split.
    + intros Hno Hm. apply Hno. exists p. split; [done|].
      by apply list_elem_of_filter.
    + intros Hm (p' & Hid & Hp'). apply list_elem_of_filter in Hp' as [Hm' Hp'].
      by rewrite (NoDup_fmap_elem_inj id ps p p' Hnd Hp Hp' Hid) in Hm.
Qed.

(** X16. On a reachable catalog whose titles are strings, a hybrid search
    with a non-empty string query and a [searchType] whose string conversion
    completes (any string, number, boolean or [null], and any object or
    array without an own [toString] inside) answers 200 with exactly five
    results, whatever the query and whatever the draws: the scored
    remainder fills up what the title matches leave. *)
Theorem hybrid_returns_five (reqBody : gmap string value) (q : string) (σ : Server) :
  reachable σ →
  Forall (λ p, isText (title p)) (sampleProducts σ) →
  prop reqBody "query" = VStr q →
  q ≠ "" →
  propDefault reqBody "searchType" (VStr "text") ≠ VStr "text" →
  propDefault reqBody "searchType" (VStr "text") ≠ VStr "semantic" →
  toStringThrows (propDefault reqBody "searchType" (VStr "text")) = false →
  responseStatus (searchHandler reqBody σ) = Some 200%nat ∧
  length (hitsOf (searchHandler reqBody σ)) = 5%nat.
Proof.
  intros Hσ Htitles Hq Hne Htext Hsem Hconv.
  pose proof (reachable_NoDup_ids σ Hσ) as Hnd.
  assert (5 ≤ length (sampleProducts σ))%nat as Hlen.
  { clear -Hσ. induction Hσ as [g | σ r Hσ IH].
    - destruct (boot_products g) as [Hids _].
      rewrite <- (length_fmap id), Hids. simpl. lia.
    - destruct (route_catalog_cases r σ) as [-> | (b & _ & _ & _ & ->)]; [done|].
      rewrite length_app. lia. }
  destruct σ as [ps g]. cbn [sampleProducts] in *.
  destruct (hybrid_search_cases reqBody q ps g Hq Hne Htext Hsem)
    as [[HE _] | [_ ->]].
  - exfalso. apply Exists_exists in HE as (p & Hp & Hno).
    rewrite Forall_forall in Htitles. by apply Hno, Htitles.
  - rewrite Hconv. split; [done|]. simpl. rewrite hybridResults_length by done. lia.
Qed.

Lemma hybrid_returns_five_witness :
  let reqBody := searchRequest "shoes" "hybrid" in
  let σ := boot g0 in
  responseStatus (searchHandler reqBody σ) = Some 200%nat ∧
  length (hitsOf (searchHandler reqBody σ)) = 5%nat.
Proof.
  intros reqBody σ. apply (hybrid_returns_five reqBody "shoes" σ).
  - apply reachable_boot.
  - eapply Forall_impl; [apply boot_products|]. intros p [Ht _]. exact Ht.
  - reflexivity.
  - discriminate.
  - discriminate.
  - discriminate.
  - reflexivity.
Defined.



(** ** Insertion on a reachable catalog *)

Lemma idsUpTo_fresh n : pretty (n + 1)%nat ∉ idsUpTo n.
Proof.
  unfold idsUpTo. intros (k & Hk & Hin)%list_elem_of_fmap.
  apply (inj pretty) in Hk. apply elem_of_seq in Hin. lia.
Qed.

(** X18. An accepted insertion on a reachable catalog of n products gives
    the new product the id n + 1 in decimal, which no product of the
    catalog carries; a falsy or missing category becomes "General" and a
    falsy or missing price becomes 0, truthy ones are stored as sent; both
    vectors have 512 components. *)
Theorem new_product_fields (reqBody : gmap string value) (σ : Server) :
  reachable σ →
  truthy (prop reqBody "title") = true →
  truthy (prop reqBody "description") = true →
  ∃ (p : Product) (σ' : Server),
    addProductHandler reqBody σ = (Normal (created p), σ') ∧
    id p = pretty (length (sampleProducts σ) + 1)%nat ∧
    (id p ∉ id <$> sampleProducts σ) ∧
    category p = (if truthy (prop reqBody "category")
                  then prop reqBody "category" else VStr "General") ∧
    price p = (if truthy (prop reqBody "price")
               then prop reqBody "price" else VNum 0) ∧
    vectorsOk p.
Proof.
  intros Hσ Ht Hd. pose proof (reachable_ids σ Hσ) as Hids.
  destruct σ as [ps g]. cbn [sampleProducts] in *.
  eexists _, _. split; [by apply addProductHandler_accepts|].
  split; [done|]. split; [|split; [done|split; [done|]]].
  - rewrite Hids. apply idsUpTo_fresh.
  - split; apply vectorOf_length.
Qed.

Lemma new_product_fields_witness :
  let reqBody := productRequest "T" "D" in
  let σ := boot g0 in
  ∃ (p : Product) (σ' : Server),
    addProductHandler reqBody σ = (Normal (created p), σ') ∧
    id p = pretty (length (sampleProducts σ) + 1)%nat ∧
    (id p ∉ id <$> sampleProducts σ) ∧
    category p = (if truthy (prop reqBody "category")
                  then prop reqBody "category" else VStr "General") ∧
    price p = (if truthy (prop reqBody "price")
               then prop reqBody "price" else VNum 0) ∧
    vectorsOk p.
Proof.
  intros reqBody σ. apply (new_product_fields reqBody σ).
  - apply reachable_boot.
  - reflexivity.
  - reflexivity.
Defined.

(** ** The status probe *)

(** X19. The probe reports [connected: true] exactly when the engine
    answers with status 200 and a readable body.  An engine that answers
    with another status is reported with that status and its body and
    [connected: false]; only a rejected [fetch] or body read is reported as
    "disconnected", with the message of the error. *)
Theorem probe_connected_iff (net : FetchOutcome) (σ : Server) :
  ∃ r : Response,
    vespaStatusHandler net σ = (Normal r, σ) ∧
    (connectedOf (body r) = Some true ↔ ∃ s, net = Resolves 200 (TextOk s)) ∧
    (∀ st s, net = Resolves st (TextOk s) →
             body r = VespaUpBody st s (st =? 200)%nat) ∧
    (∀ e, net = Rejects e ∨ (∃ st, net = Resolves st (TextFails e)) →
          body r = VespaDownBody "disconnected" (message e) false).
Proof.
  destruct net as [e | st [s | e]]; eexists; (split; [reflexivity|]); simpl.
  - split; [split; [discriminate | by intros [? ?]]|].
    split; [by intros ? ? [=]|].
    intros e' [[= ->] | [? [=]]]. done.
  - split.
    + split.
      * intros [= H]. apply Nat.eqb_eq in H as ->. by exists s.
      * by intros [? [= -> ->]].
    + split; [by intros ? ? [= -> ->]|].
      intros e' [[=] | [? [=]]].
  - split; [split; [discriminate | by intros [? ?]]|].
    split; [by intros ? ? [=]|].
    intros e' [[=] | [? [= _ ->]]]. done.
Qed.

(** ** The message of the search response *)

Lemma toStringThrows_not_string v s : toStringThrows v = true → v ≠ VStr s.
Proof. by intros H ->. Qed.

(** X20. Building the message converts [searchType] to a string after the
    branch has run.  When that conversion throws -- [searchType] is an object
    with an own [toString] property, or an array holding such an object --
    a request with a truthy query is answered 500 "Search failed", and the
    server is left in the state the hybrid branch leaves, scores drawn
    included. *)
Theorem search_fails_on_unconvertible_mode (reqBody : gmap string value) (σ : Server) :
  truthy (prop reqBody "query") = true →
  toStringThrows (propDefault reqBody "searchType" (VStr "text")) = true →
  fst (searchHandler reqBody σ) = Normal searchFailed ∧
  snd (searchHandler reqBody σ) = snd (hybridBranch (prop reqBody "query") σ).
Proof.
  intros Hq Hconv. rewrite searchHandler_accepts by done.
  rewrite !strictEqStr_false by (by apply toStringThrows_not_string).
  split; [|apply respond_state].
  destruct (hybridBranch _ σ) as [[rs|e] σ1]; simpl; [|done]. by rewrite Hconv.
Qed.

Lemma search_fails_on_unconvertible_mode_witness :
  let reqBody : gmap string value :=
    {[ "query" := VStr "air"; "searchType" := VObj [("toString", VNum 1)] ]} in
  let σ := boot g0 in
  fst (searchHandler reqBody σ) = Normal searchFailed ∧
  snd (searchHandler reqBody σ) = snd (hybridBranch (prop reqBody "query") σ).
Proof.
  intros reqBody σ. apply (search_fails_on_unconvertible_mode reqBody σ); reflexivity.
Defined.
